(** * Observer pattern: reference semantics and value semantics

    Shallow embedding of
      - [src/referencesemantics/observerexamples_referencesemantics.h]
      - [src/valuesemantics/observerexamples_valuesemantics.h]

    Both headers declare a generic [Subject] holding a [std::set] of raw
    observer pointers, a concrete [SubjectSystem] with two [int32_t] fields,
    and concrete observers caching the last value they were notified about.

    Modelling decisions.
      - An [Observer*] is an address, a number of type [N].
      - [std::set<Observer*>] is a finite set of addresses, [gset ptr].  A
        range-based [for] loop over a [std::set] visits the keys in ascending
        order; [iteration_order] is that traversal.
      - Objects live in a store indexed by address.  Calling through a pointer
        at which no observer object lives is undefined behaviour in C++; the
        operations return [None] there.
      - [int32_t] values are integers of type [Z].  The code only stores and
        copies them, no arithmetic is performed on them.
      - The callables of the value variant write [int32_t] variables through
        captured references; these variables live in a store [memory] of
        their own, apart from the wrapper objects.  Reading a variable that
        was never declared gives [None], a write declares it.
      - Every [World] carries a ghost log [calls] that records each invocation
        of [OnNotification] made by [SendNotification], with the handle, the
        subject as seen through the [const SubjectT&] argument, and the tag. *)

From Stdlib Require Import ZArith NArith List.
From stdpp Require Import base option numbers list sorting gmap.

Open Scope Z_scope.

(** ** Pointers and the traversal of a [std::set] of pointers *)

Abbreviation ptr := N.

Definition iteration_order (s : gset ptr) : list ptr :=
  merge_sort N.le (elements s).

(** The range-based [for] loop of [SendNotification]: the body is run on every
    element in turn, and undefined behaviour in one body aborts the loop. *)
Fixpoint for_each {W : Type} (body : ptr → W → option W)
    (l : list ptr) (w : W) : option W :=
  match l with
  | [] => Some w
  | observer :: rest =>
      match body observer w with
      | Some w' => for_each body rest w'
      | None => None
      end
  end.

(** ** Client programs

    A client of a subject is a sequence of calls of its public member
    functions.  Both namespaces offer the same four. *)

Inductive Op : Set :=
| Attach (observer : ptr)
| Detach (observer : ptr)
| SetA (value : Z)
| SetB (value : Z).

(** The calls that change the registered set. *)
Inductive Registration : Set :=
| attach (observer : ptr)
| detach (observer : ptr).

(** The net state of a handle after a sequence of registrations, in the
    words of the specification: the latest attach or detach of the handle
    decides, and a handle the sequence does not mention keeps the state it
    had before. *)
Fixpoint net_attached (before : bool) (regs : list Registration)
    (handle : ptr) : bool :=
  match regs with
  | [] => before
  | attach observer :: rest =>
      net_attached (if decide (observer = handle) then true else before)
        rest handle
  | detach observer :: rest =>
      net_attached (if decide (observer = handle) then false else before)
        rest handle
  end.

(** What a test can see after a call: [GetValueA()], [GetValueB()] and the
    cached values of the observers it watches. *)
Definition Observation : Type := Z * Z * list (option Z).

(** ** Namespace [ReferenceSemantics] *)

Module ReferenceSemantics.

Inductive SubjectSystemTag : Set := ValueA | ValueB.

#[global] Instance Tag_eq_dec_reference : EqDecision SubjectSystemTag.
Proof. solve_decision. Defined.

(** [class SubjectSystem final : public Subject<SubjectSystem, SubjectSystemTag>]:
    the base sub-object contributes [m_Observers]. *)
Record SubjectSystem : Type := mkSubjectSystem {
  m_Observers : gset ptr;
  m_ValueA : Z;
  m_ValueB : Z
}.

Definition GetValueA (subject : SubjectSystem) : Z := m_ValueA subject.
Definition GetValueB (subject : SubjectSystem) : Z := m_ValueB subject.

(** [SubjectSystem subject{};] *)
Definition SubjectSystem_new : SubjectSystem :=
  {| m_Observers := ∅; m_ValueA := 0; m_ValueB := 0 |}.

(** The abstract class [Observer<SubjectT, TagT>]: one pure virtual method. *)
Class Observer (O : Type) : Type :=
  OnNotification : O → SubjectSystem → SubjectSystemTag → O.

Module SubjectObserverA.
Record t : Type := mk { m_Value : Z }.
Definition new : t := {| m_Value := 0 |}.
Definition GetValue (this : t) : Z := m_Value this.
#[global] Instance observer : Observer t := λ this subject tag,
  if decide (tag = ValueA)
  then {| m_Value := GetValueA subject |}
  else this.
End SubjectObserverA.

Module SubjectObserverB.
Record t : Type := mk { m_Value : Z }.
Definition new : t := {| m_Value := 0 |}.
Definition GetValue (this : t) : Z := m_Value this.
#[global] Instance observer : Observer t := λ this subject tag,
  if decide (tag = ValueB)
  then {| m_Value := GetValueB subject |}
  else this.
End SubjectObserverB.

(** An object reachable through an [Observer*] has one of the two final
    classes as its dynamic type; the virtual call dispatches on it. *)
Inductive Object : Type :=
| ObjectA (o : SubjectObserverA.t)
| ObjectB (o : SubjectObserverB.t).

#[global] Instance Object_observer : Observer Object := λ this subject tag,
  match this with
  | ObjectA o => ObjectA (OnNotification o subject tag)
  | ObjectB o => ObjectB (OnNotification o subject tag)
  end.

Definition GetValue (this : Object) : Z :=
  match this with
  | ObjectA o => SubjectObserverA.GetValue o
  | ObjectB o => SubjectObserverB.GetValue o
  end.

(** One invocation of [OnNotification] as made by [SendNotification]. *)
Record Call : Type := mkCall {
  call_observer : ptr;
  call_subject : SubjectSystem;
  call_tag : SubjectSystemTag
}.

Record World : Type := mkWorld {
  subject : SubjectSystem;
  objects : gmap ptr Object;
  calls : list Call
}.

Definition set_subject (s : SubjectSystem) (w : World) : World :=
  {| subject := s; objects := objects w; calls := calls w |}.

Definition AttachObserver (observer : ptr) (w : World) : World :=
  set_subject
    {| m_Observers := {[observer]} ∪ m_Observers (subject w);
       m_ValueA := m_ValueA (subject w);
       m_ValueB := m_ValueB (subject w) |} w.

Definition DetachObserver (observer : ptr) (w : World) : World :=
  set_subject
    {| m_Observers := m_Observers (subject w) ∖ {[observer]};
       m_ValueA := m_ValueA (subject w);
       m_ValueB := m_ValueB (subject w) |} w.

(** [observer->OnNotification(static_cast<const SubjectT&>( *this ), tag);] *)
Definition notify (tag : SubjectSystemTag) (observer : ptr) (w : World)
    : option World :=
  match objects w !! observer with
  | Some o =>
      Some {| subject := subject w;
              objects := <[observer := OnNotification o (subject w) tag]> (objects w);
              calls := calls w ++ [mkCall observer (subject w) tag] |}
  | None => None
  end.

Definition SendNotification (tag : SubjectSystemTag) (w : World) : option World :=
  for_each (notify tag) (iteration_order (m_Observers (subject w))) w.

Definition SetValueA (value : Z) (w : World) : option World :=
  SendNotification ValueA
    (set_subject
       {| m_Observers := m_Observers (subject w);
          m_ValueA := value;
          m_ValueB := m_ValueB (subject w) |} w).

Definition SetValueB (value : Z) (w : World) : option World :=
  SendNotification ValueB
    (set_subject
       {| m_Observers := m_Observers (subject w);
          m_ValueA := m_ValueA (subject w);
          m_ValueB := value |} w).

(** The cached value read through a handle, when an object lives there. *)
Definition cached (observer : ptr) (w : World) : option Z :=
  GetValue <$> objects w !! observer.

(** The subject after the assignment a setter makes to its field. *)
Definition assign (tag : SubjectSystemTag) (value : Z) (s : SubjectSystem)
    : SubjectSystem :=
  match tag with
  | ValueA =>
      {| m_Observers := m_Observers s; m_ValueA := value;
         m_ValueB := m_ValueB s |}
  | ValueB =>
      {| m_Observers := m_Observers s; m_ValueA := m_ValueA s;
         m_ValueB := value |}
  end.

(** The getter of the field a tag names. *)
Definition GetValueOf (tag : SubjectSystemTag) (s : SubjectSystem) : Z :=
  match tag with
  | ValueA => GetValueA s
  | ValueB => GetValueB s
  end.

(** The setter of the field a tag names. *)
Definition SetValue (tag : SubjectSystemTag) (value : Z) (w : World)
    : option World :=
  match tag with
  | ValueA => SetValueA value w
  | ValueB => SetValueB value w
  end.

(** [SubjectObserverA observer{};] and [SubjectObserverB observer{};] at
    address [this]. *)
Definition declare_SubjectObserverA (this : ptr) (w : World) : World :=
  {| subject := subject w;
     objects := <[this := ObjectA SubjectObserverA.new]> (objects w);
     calls := calls w |}.

Definition declare_SubjectObserverB (this : ptr) (w : World) : World :=
  {| subject := subject w;
     objects := <[this := ObjectB SubjectObserverB.new]> (objects w);
     calls := calls w |}.

(** [SubjectSystem subject{};] with no observer object declared yet. *)
Definition World_new : World :=
  {| subject := SubjectSystem_new; objects := ∅; calls := [] |}.

Definition step (op : Op) (w : World) : option World :=
  match op with
  | Attach observer => Some (AttachObserver observer w)
  | Detach observer => Some (DetachObserver observer w)
  | SetA value => SetValueA value w
  | SetB value => SetValueB value w
  end.

Fixpoint run (ops : list Op) (w : World) : option World :=
  match ops with
  | [] => Some w
  | op :: rest =>
      match step op w with
      | Some w' => run rest w'
      | None => None
      end
  end.

Definition register (r : Registration) (w : World) : World :=
  match r with
  | attach observer => AttachObserver observer w
  | detach observer => DetachObserver observer w
  end.

Definition registrations (regs : list Registration) (w : World) : World :=
  foldl (λ w r, register r w) w regs.

Definition observe (handles : list ptr) (w : World) : Observation :=
  (GetValueA (subject w), GetValueB (subject w),
   (λ observer, cached observer w) <$> handles).

(** The observations after every call of a client program; the list stops
    with [None] at a call whose behaviour is undefined. *)
Fixpoint observations (handles : list ptr) (ops : list Op) (w : World)
    : list (option Observation) :=
  match ops with
  | [] => []
  | op :: rest =>
      match step op w with
      | Some w' => Some (observe handles w') :: observations handles rest w'
      | None => [None]
      end
  end.

(** How often a list of calls invokes [OnNotification] on a handle. *)
Definition times_called (observer : ptr) (cs : list Call) : nat :=
  count_occ N.eq_dec (call_observer <$> cs) observer.

(** Every registered handle points to a live observer object. *)
Definition registered_live (w : World) : Prop :=
  m_Observers (subject w) ⊆ dom (objects w).

(** The tag an observer class tests for in its [OnNotification]. *)
Definition acts_on (o : Object) (tag : SubjectSystemTag) : bool :=
  match o, tag with
  | ObjectA _, ValueA | ObjectB _, ValueB => true
  | _, _ => false
  end.

(** Two worlds that differ at most in the registered set. *)
Definition same_but_registered (w w' : World) : Prop :=
  GetValueA (subject w') = GetValueA (subject w)
  ∧ GetValueB (subject w') = GetValueB (subject w)
  ∧ objects w' = objects w
  ∧ (∀ observer, cached observer w' = cached observer w)
  ∧ calls w' = calls w.

(** The tag the class of an object tests for. *)
Definition tag_of (o : Object) : SubjectSystemTag :=
  match o with
  | ObjectA _ => ValueA
  | ObjectB _ => ValueB
  end.

(** Every registered observer holds the current value of its field. *)
Definition in_sync (w : World) : Prop :=
  ∀ p o, p ∈ m_Observers (subject w) → objects w !! p = Some o →
         GetValue o = GetValueOf (tag_of o) (subject w).

(** *** [TEST_CASE("Observer - Reference Semantics - Benchmarks")]

    The vector [observers] is the list of the addresses [make_unique] gave;
    the objects stay alive in the vector, so the addresses are distinct. *)

(** One round of the creation loop: [make_unique<SubjectObserverA>()],
    [push_back], [subject.AttachObserver(observer.get())]. *)
Definition create_observer (w : World) (this : ptr) : World :=
  AttachObserver this (declare_SubjectObserverA this w).

Definition benchmark_setup (observers : list ptr) : World :=
  foldl create_observer World_new observers.

(** The body of [BENCHMARK("Benchmark Attach")]. *)
Definition benchmark_Attach (observers : list ptr) (w : World) : World :=
  foldl (λ w observer, AttachObserver observer w) w observers.

(** The body of [BENCHMARK("Benchmark Notification")]. *)
Definition benchmark_Notification (w : World) : option World :=
  SetValueA 0 w.

End ReferenceSemantics.

(** ** Namespace [ValueSemantics] *)

Module ValueSemantics.

Inductive SubjectSystemTag : Set := ValueA | ValueB.

#[global] Instance Tag_eq_dec_value : EqDecision SubjectSystemTag.
Proof. solve_decision. Defined.

Record SubjectSystem : Type := mkSubjectSystem {
  m_Observers : gset ptr;
  m_ValueA : Z;
  m_ValueB : Z
}.

Definition GetValueA (subject : SubjectSystem) : Z := m_ValueA subject.
Definition GetValueB (subject : SubjectSystem) : Z := m_ValueB subject.

Definition SubjectSystem_new : SubjectSystem :=
  {| m_Observers := ∅; m_ValueA := 0; m_ValueB := 0 |}.

(** The [int32_t] variables the callables of this header write to: the
    member [m_Value] of the [SubjectObserverA] object at an address, the
    namespace-scope [freeFuncValueB], and automatic variables of a test
    case ([lambdaValueB], [value]), numbered. *)
Inductive variable : Set :=
| m_Value_of (this : ptr)
| freeFuncValueB
| automatic (n : N).

#[global] Instance variable_eq_dec : EqDecision variable.
Proof. solve_decision. Defined.

#[global] Instance variable_countable : Countable variable.
Proof.
  refine (inj_countable'
    (λ x, match x with
          | m_Value_of this => inl this
          | freeFuncValueB => inr None
          | automatic n => inr (Some n)
          end)
    (λ y, match y with
          | inl this => m_Value_of this
          | inr None => freeFuncValueB
          | inr (Some n) => automatic n
          end) _).
  by intros [].
Defined.

(** [std::function<void(const SubjectT&, TagT)>]: any callable of that
    signature.  Its effect is on the [int32_t] variables it refers to. *)
Definition OnNotificationFunc : Type :=
  SubjectSystem → SubjectSystemTag → gmap variable Z → gmap variable Z.

Module Observer.
Record t : Type := mk { m_OnNotification : OnNotificationFunc }.
Definition OnNotification (this : t) (subject : SubjectSystem)
    (tag : SubjectSystemTag) (memory : gmap variable Z) : gmap variable Z :=
  m_OnNotification this subject tag memory.
End Observer.

(** The lambda of the constructor of [SubjectObserverA], which captures the
    member [m_Value] of the object under construction by reference. *)
Module SubjectObserverA.
Definition lambda (value : variable) : OnNotificationFunc :=
  λ subject tag memory,
    if decide (tag = ValueA)
    then <[value := GetValueA subject]> memory
    else memory.
Definition new (this : ptr) : Observer.t :=
  Observer.mk (lambda (m_Value_of this)).
Definition GetValue (this : ptr) (memory : gmap variable Z) : option Z :=
  memory !! m_Value_of this.
End SubjectObserverA.

(** The lambda [[&value{lambdaValueB}]] of the unit test, and [[&value]] of
    the lambda benchmark: it captures an automatic variable by reference. *)
Definition lambdaB (value : N) : OnNotificationFunc :=
  λ subject tag memory,
    if decide (tag = ValueB)
    then <[automatic value := GetValueB subject]> memory
    else memory.

(** The free function [OnNotification] of the unnamed namespace. *)
Definition OnNotification : OnNotificationFunc :=
  λ subject tag memory,
    if decide (tag = ValueB)
    then <[freeFuncValueB := GetValueB subject]> memory
    else memory.

Record Call : Type := mkCall {
  call_observer : ptr;
  call_subject : SubjectSystem;
  call_tag : SubjectSystemTag
}.

Record World : Type := mkWorld {
  subject : SubjectSystem;
  observers : gmap ptr Observer.t;
  memory : gmap variable Z;
  calls : list Call
}.

Definition set_subject (s : SubjectSystem) (w : World) : World :=
  {| subject := s; observers := observers w; memory := memory w;
     calls := calls w |}.

Definition AttachObserver (observer : ptr) (w : World) : World :=
  set_subject
    {| m_Observers := {[observer]} ∪ m_Observers (subject w);
       m_ValueA := m_ValueA (subject w);
       m_ValueB := m_ValueB (subject w) |} w.

Definition DetachObserver (observer : ptr) (w : World) : World :=
  set_subject
    {| m_Observers := m_Observers (subject w) ∖ {[observer]};
       m_ValueA := m_ValueA (subject w);
       m_ValueB := m_ValueB (subject w) |} w.

Definition notify (tag : SubjectSystemTag) (observer : ptr) (w : World)
    : option World :=
  match observers w !! observer with
  | Some o =>
      Some {| subject := subject w;
              observers := observers w;
              memory := Observer.OnNotification o (subject w) tag (memory w);
              calls := calls w ++ [mkCall observer (subject w) tag] |}
  | None => None
  end.

Definition SendNotification (tag : SubjectSystemTag) (w : World) : option World :=
  for_each (notify tag) (iteration_order (m_Observers (subject w))) w.

Definition SetValueA (value : Z) (w : World) : option World :=
  SendNotification ValueA
    (set_subject
       {| m_Observers := m_Observers (subject w);
          m_ValueA := value;
          m_ValueB := m_ValueB (subject w) |} w).

Definition SetValueB (value : Z) (w : World) : option World :=
  SendNotification ValueB
    (set_subject
       {| m_Observers := m_Observers (subject w);
          m_ValueA := m_ValueA (subject w);
          m_ValueB := value |} w).

(** Declarations made by the test cases. *)

(** [SubjectObserverA observerA{};] at address [this]. *)
Definition declare_SubjectObserverA (this : ptr) (w : World) : World :=
  {| subject := subject w;
     observers := <[this := SubjectObserverA.new this]> (observers w);
     memory := <[m_Value_of this := 0]> (memory w);
     calls := calls w |}.

(** [SubjectSystem::Observer observer{func};] at address [this]. *)
Definition declare_Observer (this : ptr) (func : OnNotificationFunc)
    (w : World) : World :=
  {| subject := subject w;
     observers := <[this := Observer.mk func]> (observers w);
     memory := memory w;
     calls := calls w |}.

(** [int32_t x{value};], also the assignment [freeFuncValueB = 0;]. *)
Definition declare_int32_t (x : variable) (value : Z) (w : World) : World :=
  {| subject := subject w;
     observers := observers w;
     memory := <[x := value]> (memory w);
     calls := calls w |}.

(** The subject after the assignment a setter makes to its field. *)
Definition assign (tag : SubjectSystemTag) (value : Z) (s : SubjectSystem)
    : SubjectSystem :=
  match tag with
  | ValueA =>
      {| m_Observers := m_Observers s; m_ValueA := value;
         m_ValueB := m_ValueB s |}
  | ValueB =>
      {| m_Observers := m_Observers s; m_ValueA := m_ValueA s;
         m_ValueB := value |}
  end.

(** The getter of the field a tag names. *)
Definition GetValueOf (tag : SubjectSystemTag) (s : SubjectSystem) : Z :=
  match tag with
  | ValueA => GetValueA s
  | ValueB => GetValueB s
  end.

Definition SetValue (tag : SubjectSystemTag) (value : Z) (w : World)
    : option World :=
  match tag with
  | ValueA => SetValueA value w
  | ValueB => SetValueB value w
  end.

Definition World_new : World :=
  {| subject := SubjectSystem_new; observers := ∅; memory := ∅; calls := [] |}.

Definition step (op : Op) (w : World) : option World :=
  match op with
  | Attach observer => Some (AttachObserver observer w)
  | Detach observer => Some (DetachObserver observer w)
  | SetA value => SetValueA value w
  | SetB value => SetValueB value w
  end.

Fixpoint run (ops : list Op) (w : World) : option World :=
  match ops with
  | [] => Some w
  | op :: rest =>
      match step op w with
      | Some w' => run rest w'
      | None => None
      end
  end.

Definition register (r : Registration) (w : World) : World :=
  match r with
  | attach observer => AttachObserver observer w
  | detach observer => DetachObserver observer w
  end.

Definition registrations (regs : list Registration) (w : World) : World :=
  foldl (λ w r, register r w) w regs.

(** The cached values are read from the variables the callables write. *)
Definition observe (watched : list variable) (w : World) : Observation :=
  (GetValueA (subject w), GetValueB (subject w),
   (λ x, memory w !! x) <$> watched).

Fixpoint observations (watched : list variable) (ops : list Op) (w : World)
    : list (option Observation) :=
  match ops with
  | [] => []
  | op :: rest =>
      match step op w with
      | Some w' => Some (observe watched w') :: observations watched rest w'
      | None => [None]
      end
  end.

Definition times_called (observer : ptr) (cs : list Call) : nat :=
  count_occ N.eq_dec (call_observer <$> cs) observer.

Definition registered_live (w : World) : Prop :=
  m_Observers (subject w) ⊆ dom (observers w).

Definition same_but_registered (w w' : World) : Prop :=
  GetValueA (subject w') = GetValueA (subject w)
  ∧ GetValueB (subject w') = GetValueB (subject w)
  ∧ observers w' = observers w
  ∧ memory w' = memory w
  ∧ calls w' = calls w.

(** The callables this header defines, each with the tag it acts on and the
    variable it caches the value in. *)
Inductive caches : Observer.t → SubjectSystemTag → variable → Prop :=
| caches_SubjectObserverA (this : ptr) :
    caches (SubjectObserverA.new this) ValueA (m_Value_of this)
| caches_lambdaB (n : N) :
    caches (Observer.mk (lambdaB n)) ValueB (automatic n)
| caches_OnNotification :
    caches (Observer.mk OnNotification) ValueB freeFuncValueB.

(** Every registered handle points to a wrapper of one of these callables. *)
Definition registered_from_header (w : World) : Prop :=
  ∀ observer, observer ∈ m_Observers (subject w) →
    ∃ o tag x, observers w !! observer = Some o ∧ caches o tag x.

(** A callable that leaves the variable [x] as it finds it. *)
Definition preserves (x : variable) (o : Observer.t) : Prop :=
  ∀ subject tag memory,
    Observer.OnNotification o subject tag memory !! x = memory !! x.

(** Every registered wrapper of a callable of the header has the current
    value of its field in the variable it caches in. *)
Definition in_sync (w : World) : Prop :=
  ∀ p o t x, p ∈ m_Observers (subject w) → observers w !! p = Some o →
             caches o t x → memory w !! x = Some (GetValueOf t (subject w)).

(** *** The benchmarks of the value variant *)

(** [std::make_unique<SubjectSystem::Observer>(other)] at address [this]:
    the implicit copy constructor copies the stored callable, and with it
    the references the callable has captured. *)
Definition copy_Observer (this other : ptr) (w : World) : option World :=
  match observers w !! other with
  | Some o => Some (declare_Observer this (Observer.m_OnNotification o) w)
  | None => None
  end.

(** One round of the creation loop of the object benchmark. *)
Definition create_observer (w : World) (this : ptr) : World :=
  AttachObserver this (declare_SubjectObserverA this w).

(** One round of the creation loop of the lambda and the free-function
    benchmark: the new wrapper is a copy of the one at [other]. *)
Definition create_copy (other this : ptr) (w : World) : option World :=
  AttachObserver this <$> copy_Observer this other w.

(** [TEST_CASE("Observer - Value Semantics - Benchmarks Object")] *)
Definition benchmark_Object_setup (observers : list ptr) : World :=
  foldl create_observer World_new observers.

(** [TEST_CASE("Observer - Value Semantics - Benchmarks Lambda")]:
    [int32_t value{0}], the wrapper [observerLambda] of a lambda that
    captures it, and the copies. *)
Definition benchmark_Lambda_setup (value : N) (observerLambda : ptr)
    (observers : list ptr) : option World :=
  for_each (create_copy observerLambda) observers
    (declare_Observer observerLambda (lambdaB value)
       (declare_int32_t (automatic value) 0 World_new)).

(** [TEST_CASE("Observer - Value Semantics - Benchmarks Free Function")]:
    the wrapper [observerFreeFunction] and the copies.  [freeFuncValueB]
    holds whatever the test cases run before have left in it. *)
Definition benchmark_FreeFunction_setup (left : Z)
    (observerFreeFunction : ptr) (observers : list ptr) : option World :=
  for_each (create_copy observerFreeFunction) observers
    (declare_Observer observerFreeFunction OnNotification
       (declare_int32_t freeFuncValueB left World_new)).

Definition benchmark_Attach (observers : list ptr) (w : World) : World :=
  foldl (λ w observer, AttachObserver observer w) w observers.

Definition benchmark_Notification (w : World) : option World :=
  SetValueA 0 w.

End ValueSemantics.

(** ** The unit tests

    The objects [observerA], [observerB] and [observerBB] of a test live at
    three distinct addresses [a], [b] and [bb], which the test does not
    choose; [lambdaValueB] is the automatic variable [n]. *)

Definition reference_test_declared_at (a b bb : ptr)
    : ReferenceSemantics.World :=
  ReferenceSemantics.declare_SubjectObserverB bb
    (ReferenceSemantics.declare_SubjectObserverB b
      (ReferenceSemantics.declare_SubjectObserverA a
        ReferenceSemantics.World_new)).

Definition reference_test_attached_at (a b bb : ptr)
    : ReferenceSemantics.World :=
  ReferenceSemantics.AttachObserver bb
    (ReferenceSemantics.AttachObserver b
      (ReferenceSemantics.AttachObserver a
        (reference_test_declared_at a b bb))).

Definition value_test_declared_at (a b bb : ptr) (n : N)
    : ValueSemantics.World :=
  ValueSemantics.declare_Observer bb ValueSemantics.OnNotification
    (ValueSemantics.declare_int32_t ValueSemantics.freeFuncValueB 0
      (ValueSemantics.declare_Observer b (ValueSemantics.lambdaB n)
        (ValueSemantics.declare_int32_t (ValueSemantics.automatic n) 0
          (ValueSemantics.declare_SubjectObserverA a
            ValueSemantics.World_new)))).

Definition value_test_attached_at (a b bb : ptr) (n : N)
    : ValueSemantics.World :=
  ValueSemantics.AttachObserver bb
    (ValueSemantics.AttachObserver b
      (ValueSemantics.AttachObserver a
        (value_test_declared_at a b bb n))).

(** The calls of the tests after the observers are attached. *)
Definition test_program_at (bb : ptr) : list Op :=
  [SetA 1; SetB 2; Detach bb; SetB 3].

(** What the value-semantics test reads: [observerA.GetValue()],
    [lambdaValueB] and [freeFuncValueB]. *)
Definition test_watched_at (a : ptr) (n : N) : list ValueSemantics.variable :=
  [ValueSemantics.m_Value_of a; ValueSemantics.automatic n;
   ValueSemantics.freeFuncValueB].

(** The variable each observer of the value-semantics test caches in. *)
Definition test_var_of_at (b bb : ptr) (n : N) (p : ptr)
    : ValueSemantics.variable :=
  if decide (p = b) then ValueSemantics.automatic n
  else if decide (p = bb) then ValueSemantics.freeFuncValueB
  else ValueSemantics.m_Value_of p.

(** The observations the tests require after each of these calls. *)
Definition test_expected : list (option Observation) :=
  [Some (1, 0, [Some 1; Some 0; Some 0]);
   Some (1, 2, [Some 1; Some 2; Some 2]);
   Some (1, 2, [Some 1; Some 2; Some 2]);
   Some (1, 3, [Some 1; Some 3; Some 2])].

(** One choice of addresses, to run the tests on: 1 for [observerA], 2 for
    [observerB], 3 for [observerBB], and the automatic variable 0. *)
Definition reference_test_declared : ReferenceSemantics.World :=
  reference_test_declared_at 1 2 3.

Definition reference_test_attached : ReferenceSemantics.World :=
  reference_test_attached_at 1 2 3.

Definition value_test_declared : ValueSemantics.World :=
  value_test_declared_at 1 2 3 0.

Definition value_test_attached : ValueSemantics.World :=
  value_test_attached_at 1 2 3 0.

(** Registrations tried on the declared observers: 1 is attached and detached
    again, 4 is detached though never attached, 2 and 3 end attached. *)
Definition test_registrations : list Registration :=
  [attach 1%N; attach 2%N; detach 1%N; attach 3%N; detach 4%N; attach 2%N].

Definition test_program : list Op := test_program_at 3.

Definition test_watched : list ValueSemantics.variable :=
  test_watched_at 1 0.

(** A second value-semantics client: two wrappers of the free function
    [OnNotification], at addresses 1 and 2, both attached.  The free-function
    benchmark builds such wrappers, all writing [freeFuncValueB]. *)
Definition two_wrappers_attached : ValueSemantics.World :=
  ValueSemantics.AttachObserver 2
    (ValueSemantics.AttachObserver 1
      (ValueSemantics.declare_Observer 2 ValueSemantics.OnNotification
        (ValueSemantics.declare_Observer 1 ValueSemantics.OnNotification
          (ValueSemantics.declare_int32_t ValueSemantics.freeFuncValueB 0
            ValueSemantics.World_new)))).

(** ** Corresponding worlds of the two variants

    An observer object of the reference variant and a wrapper of the value
    variant correspond when they act on the same tag; the wrapper at handle
    [p] caches in the variable [var_of p], which holds what the object's
    [m_Value] holds.  As every object of the reference variant has an
    [m_Value] of its own, the variables of distinct live handles differ. *)

Definition tag_value (tag : ReferenceSemantics.SubjectSystemTag)
    : ValueSemantics.SubjectSystemTag :=
  match tag with
  | ReferenceSemantics.ValueA => ValueSemantics.ValueA
  | ReferenceSemantics.ValueB => ValueSemantics.ValueB
  end.

Definition corresponding_observer (o : ReferenceSemantics.Object)
    (f : ValueSemantics.Observer.t) (x : ValueSemantics.variable) : Prop :=
  match o with
  | ReferenceSemantics.ObjectA _ =>
      ValueSemantics.caches f ValueSemantics.ValueA x
  | ReferenceSemantics.ObjectB _ =>
      ValueSemantics.caches f ValueSemantics.ValueB x
  end.

Record corresponding (var_of : ptr → ValueSemantics.variable)
    (wr : ReferenceSemantics.World) (wv : ValueSemantics.World) : Prop :=
  mk_corresponding {
    corr_Observers :
      ReferenceSemantics.m_Observers (ReferenceSemantics.subject wr)
      = ValueSemantics.m_Observers (ValueSemantics.subject wv);
    corr_ValueA :
      ReferenceSemantics.m_ValueA (ReferenceSemantics.subject wr)
      = ValueSemantics.m_ValueA (ValueSemantics.subject wv);
    corr_ValueB :
      ReferenceSemantics.m_ValueB (ReferenceSemantics.subject wr)
      = ValueSemantics.m_ValueB (ValueSemantics.subject wv);
    corr_absent : ∀ p,
      ReferenceSemantics.objects wr !! p = None →
      ValueSemantics.observers wv !! p = None;
    corr_present : ∀ p o,
      ReferenceSemantics.objects wr !! p = Some o →
      ∃ f, ValueSemantics.observers wv !! p = Some f
           ∧ corresponding_observer o f (var_of p)
           ∧ ValueSemantics.memory wv !! var_of p
             = Some (ReferenceSemantics.GetValue o);
    corr_separate : ∀ p q,
      is_Some (ReferenceSemantics.objects wr !! p) →
      is_Some (ReferenceSemantics.objects wr !! q) →
      var_of p = var_of q → p = q
  }.

(** The variables of the value-semantics unit test. *)
Definition test_var_of : ptr → ValueSemantics.variable :=
  test_var_of_at 2 3 0.

(** The unit tests after [DetachObserver(&observerBB)], and a client program
    run from there. *)
Definition reference_test_detached : ReferenceSemantics.World :=
  ReferenceSemantics.DetachObserver 3 reference_test_attached.

Definition value_test_detached : ValueSemantics.World :=
  ValueSemantics.DetachObserver 3 value_test_attached.

Definition later_program : list Op :=
  [SetB 3; Attach 1; SetA 4; Detach 2; SetB 5].

(** A longer client program for both unit-test worlds. *)
Definition longer_program : list Op :=
  test_program ++ [Attach 3; SetB 7; Detach 1; SetA 8; Attach 1; SetA 9].

(** Addresses and programs to try the further properties on. *)
Definition benchmark_addresses : list ptr := [5; 2; 9; 7]%N.

Definition registrations_one : list Registration :=
  [attach 1%N; attach 2%N; detach 1%N; attach 3%N].

Definition registrations_two : list Registration :=
  [detach 1%N; attach 3%N; attach 2%N; attach 3%N].

Definition setter_program : list Op :=
  [SetA 4; Detach 2; SetB 6; SetA 5; Detach 9; SetB 8].

(** The unit-test observers attached to a subject whose [ValueA] is 6
    already, as after [SetValueA(6)] on the subject without observers: the
    observers still read 0. *)
Definition reference_test_stale : ReferenceSemantics.World :=
  ReferenceSemantics.set_subject
    (ReferenceSemantics.assign ReferenceSemantics.ValueA 6
       (ReferenceSemantics.subject reference_test_attached))
    reference_test_attached.

Definition value_test_stale : ValueSemantics.World :=
  ValueSemantics.set_subject
    (ValueSemantics.assign ValueSemantics.ValueA 6
       (ValueSemantics.subject value_test_attached))
    value_test_attached.

(** * Facts *)

(** ** Traversal of the registered set *)

Lemma iteration_order_Permutation (s : gset ptr) :
  iteration_order s ≡ₚ elements s.
Proof. apply merge_sort_Permutation. Qed.

Lemma elem_of_iteration_order (s : gset ptr) (p : ptr) :
  p ∈ iteration_order s ↔ p ∈ s.
Proof. by rewrite iteration_order_Permutation, elem_of_elements. Qed.

Lemma NoDup_iteration_order (s : gset ptr) : NoDup (iteration_order s).
Proof. rewrite iteration_order_Permutation. apply NoDup_elements. Qed.

Lemma iteration_order_ascending (s : gset ptr) :
  StronglySorted N.le (iteration_order s).
Proof. apply (StronglySorted_merge_sort N.le). Qed.

Lemma count_occ_NoDup (l : list ptr) (p : ptr) :
  NoDup l → count_occ N.eq_dec l p = if decide (p ∈ l) then 1%nat else 0%nat.
Proof.
  induction 1 as [|x l Hx Hl IH]; cbn [count_occ].
  - case_decide as Hp; [by apply not_elem_of_nil in Hp|done].
  - destruct (N.eq_dec x p) as [->|Hne]; rewrite IH.
    + rewrite decide_False by done.
      by rewrite decide_True by (apply list_elem_of_here).
    + apply decide_ext. rewrite elem_of_cons.
      split; [by right | intros [?|?]; [congruence|done]].
Qed.

(** ** Net state *)

Lemma net_attached_ext (b1 b2 : bool) regs p :
  b1 = b2 → net_attached b1 regs p = net_attached b2 regs p.
Proof. by intros ->. Qed.

(** ** Reference semantics *)

Section reference_facts.
Import ReferenceSemantics.

Lemma ref_SetValue_unfold tag value w :
  SetValue tag value w
  = SendNotification tag (set_subject (assign tag value (subject w)) w).
Proof. by destruct tag. Qed.

(** The virtual call, by dynamic type and tag. *)
Lemma ref_OnNotification_eq (o : Object) s tag :
  OnNotification o s tag
  = match o, tag with
    | ObjectA _, ValueA => ObjectA (SubjectObserverA.mk (GetValueA s))
    | ObjectB _, ValueB => ObjectB (SubjectObserverB.mk (GetValueB s))
    | _, _ => o
    end.
Proof. by destruct o, tag. Qed.

Lemma ref_for_each_notify tag (l : list ptr) (w : World) :
  NoDup l →
  (∀ p, p ∈ l → is_Some (objects w !! p)) →
  ∃ w', for_each (notify tag) l w = Some w'
    ∧ subject w' = subject w
    ∧ calls w' = calls w ++ ((λ p, mkCall p (subject w) tag) <$> l)
    ∧ ∀ q, objects w' !! q
           = if decide (q ∈ l)
             then (λ o, OnNotification o (subject w) tag) <$> objects w !! q
             else objects w !! q.
Proof.
  intros Hnd. revert w.
  induction Hnd as [|x l Hx Hnd IH]; intros w Hlive.
  - exists w. simpl. rewrite app_nil_r. by repeat split.
  - destruct (Hlive x (list_elem_of_here _ _)) as [o Ho].
    simpl. unfold notify at 1. rewrite Ho.
    set (w1 := {| subject := subject w;
                  objects := <[x := OnNotification o (subject w) tag]> (objects w);
                  calls := calls w ++ [mkCall x (subject w) tag] |}).
    destruct (IH w1) as (w' & Hrun & Hs & Hc & Ho').
    { intros p Hp. simpl. rewrite lookup_insert_ne; [|set_solver].
      apply Hlive. by right. }
    exists w'. split; [done|]. split; [done|]. split.
    + rewrite Hc. simpl. by rewrite <- app_assoc.
    + intros q. rewrite Ho'. simpl.
      destruct (decide (q = x)) as [->|Hne].
      * rewrite decide_False by done.
        rewrite decide_True by (apply list_elem_of_here).
        by rewrite lookup_insert_eq, Ho.
      * rewrite lookup_insert_ne by done.
        apply decide_ext. rewrite elem_of_cons.
        split; [by right | intros [?|?]; [congruence|done]].
Qed.


Lemma ref_SendNotification_spec tag (w : World) :
  registered_live w →
  ∃ w', SendNotification tag w = Some w'
    ∧ subject w' = subject w
    ∧ calls w' = calls w ++ ((λ p, mkCall p (subject w) tag)
                              <$> iteration_order (m_Observers (subject w)))
    ∧ ∀ q, objects w' !! q
           = if decide (q ∈ m_Observers (subject w))
             then (λ o, OnNotification o (subject w) tag) <$> objects w !! q
             else objects w !! q.
Proof.
  intros Hlive.
  destruct (ref_for_each_notify tag (iteration_order (m_Observers (subject w))) w)
    as (w' & Hrun & Hs & Hc & Ho).
  - apply NoDup_iteration_order.
  - intros p Hp. apply elem_of_dom, Hlive. by apply elem_of_iteration_order.
  - exists w'. repeat split; try done.
    intros q. rewrite Ho. apply decide_ext, elem_of_iteration_order.
Qed.

Lemma ref_SetValue_spec tag value (w : World) :
  registered_live w →
  ∃ w', SetValue tag value w = Some w'
    ∧ subject w' = assign tag value (subject w)
    ∧ calls w' = calls w ++ ((λ p, mkCall p (assign tag value (subject w)) tag)
                              <$> iteration_order (m_Observers (subject w)))
    ∧ ∀ q, objects w' !! q
           = if decide (q ∈ m_Observers (subject w))
             then (λ o, OnNotification o (assign tag value (subject w)) tag)
                    <$> objects w !! q
             else objects w !! q.
Proof.
  intros Hlive. rewrite ref_SetValue_unfold.
  destruct (ref_SendNotification_spec tag
              (set_subject (assign tag value (subject w)) w))
    as (w' & Hrun & Hs & Hc & Ho).
  - unfold registered_live in *. by destruct tag.
  - exists w'. split; [done|]. split; [done|]. split.
    + rewrite Hc. by destruct tag.
    + intros q. rewrite Ho. by destruct tag.
Qed.


Lemma ref_registrations_spec regs (w : World) :
  same_but_registered w (registrations regs w)
  ∧ ∀ p, p ∈ m_Observers (subject (registrations regs w))
         ↔ net_attached (bool_decide (p ∈ m_Observers (subject w))) regs p
           = true.
Proof.
  revert w. induction regs as [|r regs IH]; intros w.
  - split; [by repeat split|]. intros p. simpl.
    by rewrite bool_decide_eq_true.
  - destruct (IH (register r w)) as [(Ha & Hb & Ho & Hc & Hl) Hmem].
    split.
    + unfold registrations in *. simpl.
      destruct r; repeat split; intros;
        rewrite ?Ha, ?Hb, ?Ho, ?Hc, ?Hl; done.
    + intros p. unfold registrations in *. simpl. rewrite Hmem.
      destruct r as [q|q]; simpl;
        (erewrite net_attached_ext; [reflexivity|]);
        destruct (decide (q = p)) as [->|Hne].
      * apply bool_decide_eq_true. set_solver.
      * apply bool_decide_ext. set_solver.
      * apply bool_decide_eq_false. set_solver.
      * apply bool_decide_ext. set_solver.
Qed.

Lemma ref_times_called_new (s : SubjectSystem) tag (X : gset ptr) p :
  times_called p ((λ q, mkCall q s tag) <$> iteration_order X)
  = if decide (p ∈ X) then 1%nat else 0%nat.
Proof.
  unfold times_called. rewrite <- list_fmap_compose.
  change (call_observer ∘ _) with (@id ptr).
  rewrite list_fmap_id, count_occ_NoDup by apply NoDup_iteration_order.
  apply decide_ext, elem_of_iteration_order.
Qed.

(** A handle that is neither registered nor attached by the program is never
    called: its object stays as it is while the program runs. *)
Lemma ref_run_frame (ops : list Op) (p : ptr) (w : World) :
  p ∉ m_Observers (subject w) →
  Attach p ∉ ops →
  (∀ q, q ∈ m_Observers (subject w) ∨ Attach q ∈ ops →
        is_Some (objects w !! q)) →
  ∃ w', run ops w = Some w' ∧ objects w' !! p = objects w !! p.
Proof.
  revert w. induction ops as [|op ops IH]; intros w Hp Hna Hlive.
  - by exists w.
  - assert (Hna' : Attach p ∉ ops) by (intros ?; apply Hna; by right).
    assert (Hset : ∀ tag value, ∃ w1,
               SetValue tag value w = Some w1
               ∧ m_Observers (subject w1) = m_Observers (subject w)
               ∧ objects w1 !! p = objects w !! p
               ∧ ∀ q, is_Some (objects w !! q) → is_Some (objects w1 !! q)).
    { intros tag value.
      destruct (ref_SetValue_spec tag value w) as (w1 & Hrun & Hs & _ & Ho).
      { intros q Hq. apply elem_of_dom, Hlive. by left. }
      exists w1. split; [done|]. split; [rewrite Hs; by destruct tag|].
      split; [by rewrite Ho, decide_False|].
      intros q Hq. rewrite Ho. case_decide; [|done].
      by apply fmap_is_Some. }
    simpl. destruct op as [q|q|value|value]; simpl.
    + destruct (IH (AttachObserver q w)) as (w' & Hrun' & Hobj');
        simpl; [|done| |by exists w'].
      * assert (q ≠ p) by (intros ->; apply Hna; by left). set_solver.
      * intros q' [Hq'|Hq']; apply Hlive; [|by right; right].
        apply elem_of_union in Hq' as [Hq'|Hq']; [|by left].
        apply elem_of_singleton in Hq' as ->. right. by left.
    + destruct (IH (DetachObserver q w)) as (w' & Hrun' & Hobj');
        simpl; [set_solver|done| |by exists w'].
      intros q' [Hq'|Hq']; apply Hlive; [|by right; right].
      left. set_solver.
    + destruct (Hset ValueA value) as (w1 & Hrun & Hreg & Hobj & Hdom).
      simpl in Hrun. rewrite Hrun.
      destruct (IH w1) as (w' & Hrun' & Hobj'); [by rewrite Hreg|done| |].
      * intros q' Hq'. apply Hdom, Hlive. rewrite Hreg in Hq'.
        destruct Hq' as [?|?]; [by left|by right; right].
      * exists w'. split; [done|]. by rewrite Hobj'.
    + destruct (Hset ValueB value) as (w1 & Hrun & Hreg & Hobj & Hdom).
      simpl in Hrun. rewrite Hrun.
      destruct (IH w1) as (w' & Hrun' & Hobj'); [by rewrite Hreg|done| |].
      * intros q' Hq'. apply Hdom, Hlive. rewrite Hreg in Hq'.
        destruct Hq' as [?|?]; [by left|by right; right].
      * exists w'. split; [done|]. by rewrite Hobj'.
Qed.

(** A setter call on a subject whose registered handles are among three
    live observers. *)
Lemma ref_SetValue_three tag value (a b bb : ptr) (w : World)
    (oa ob obb : Object) :
  objects w !! a = Some oa →
  objects w !! b = Some ob →
  objects w !! bb = Some obb →
  m_Observers (subject w) ⊆ {[a; b; bb]} →
  ∃ w', SetValue tag value w = Some w'
    ∧ subject w' = assign tag value (subject w)
    ∧ objects w' !! a
      = Some (if decide (a ∈ m_Observers (subject w))
              then OnNotification oa (assign tag value (subject w)) tag
              else oa)
    ∧ objects w' !! b
      = Some (if decide (b ∈ m_Observers (subject w))
              then OnNotification ob (assign tag value (subject w)) tag
              else ob)
    ∧ objects w' !! bb
      = Some (if decide (bb ∈ m_Observers (subject w))
              then OnNotification obb (assign tag value (subject w)) tag
              else obb).
Proof.
  intros Ha Hb Hbb Hsub.
  destruct (ref_SetValue_spec tag value w) as (w' & Hrun & Hs & _ & Ho).
  { intros q Hq. apply elem_of_dom.
    apply Hsub in Hq. rewrite !elem_of_union, !elem_of_singleton in Hq.
    destruct Hq as [[->| ->]| ->]; eauto. }
  exists w'. split; [done|]. split; [done|].
  rewrite !Ho, Ha, Hb, Hbb. by repeat split; case_decide.
Qed.

Lemma ref_observe_three (a b bb : ptr) (w : World) (oa ob obb : Object) :
  objects w !! a = Some oa →
  objects w !! b = Some ob →
  objects w !! bb = Some obb →
  observe [a; b; bb] w
  = (m_ValueA (subject w), m_ValueB (subject w),
     [Some (GetValue oa); Some (GetValue ob); Some (GetValue obb)]).
Proof.
  intros Ha Hb Hbb. unfold observe, cached. simpl.
  by rewrite Ha, Hb, Hbb.
Qed.

End reference_facts.

(** ** Value semantics *)

Section value_facts.
Import ValueSemantics.

Lemma val_SetValue_unfold tag value w :
  SetValue tag value w
  = SendNotification tag (set_subject (assign tag value (subject w)) w).
Proof. by destruct tag. Qed.

(** What each callable of the header does, in one equation. *)
Lemma val_caches_spec o t x :
  caches o t x →
  ∀ s tag m,
    Observer.OnNotification o s tag m
    = if decide (tag = t) then <[x := GetValueOf t s]> m else m.
Proof. by destruct 1. Qed.

(** The variable tells the tag: members [m_Value] cache [ValueA], the other
    variables cache [ValueB]. *)
Lemma val_caches_tag o1 o2 t1 t2 x :
  caches o1 t1 x → caches o2 t2 x → t1 = t2.
Proof. intros H1 H2. by inversion H1; subst; inversion H2. Qed.

(** The memory after the callables of the handles [l] have run in turn. *)
Lemma val_for_each_notify tag (l : list ptr) (w : World) :
  (∀ p, p ∈ l → is_Some (observers w !! p)) →
  ∃ w', for_each (notify tag) l w = Some w'
    ∧ subject w' = subject w
    ∧ observers w' = observers w
    ∧ calls w' = calls w ++ ((λ p, mkCall p (subject w) tag) <$> l)
    ∧ memory w'
      = foldl (λ m p, from_option
                        (λ o, Observer.OnNotification o (subject w) tag m)
                        m (observers w !! p))
          (memory w) l.
Proof.
  revert w. induction l as [|x l IH]; intros w Hlive.
  - exists w. simpl. rewrite app_nil_r. by repeat split.
  - destruct (Hlive x (list_elem_of_here _ _)) as [o Ho].
    simpl. unfold notify at 1. rewrite Ho.
    set (w1 := {| subject := subject w; observers := observers w;
                  memory := Observer.OnNotification o (subject w) tag (memory w);
                  calls := calls w ++ [mkCall x (subject w) tag] |}).
    destruct (IH w1) as (w' & Hrun & Hs & Hobs & Hc & Hm).
    { intros p Hp. apply Hlive. by right. }
    exists w'. split; [done|]. split; [done|]. split; [done|]. split.
    + rewrite Hc. simpl. by rewrite <- app_assoc.
    + by rewrite Hm.
Qed.


Lemma val_foldl_frame (obs : gmap ptr Observer.t) s tag x (l : list ptr)
    (m : gmap variable Z) :
  (∀ p o, p ∈ l → obs !! p = Some o →
          ∀ m', Observer.OnNotification o s tag m' !! x = m' !! x) →
  foldl (λ m p, from_option (λ o, Observer.OnNotification o s tag m)
                  m (obs !! p)) m l !! x
  = m !! x.
Proof.
  revert m. induction l as [|q l IH]; intros m Hframe; [done|].
  simpl. rewrite IH.
  - destruct (obs !! q) as [o|] eqn:Ho; [|done]. simpl.
    apply (Hframe q o); [apply list_elem_of_here|done].
  - intros p o Hp. apply Hframe. by right.
Qed.

Lemma val_SendNotification_spec tag (w : World) :
  registered_live w →
  ∃ w', SendNotification tag w = Some w'
    ∧ subject w' = subject w
    ∧ observers w' = observers w
    ∧ calls w' = calls w ++ ((λ p, mkCall p (subject w) tag)
                              <$> iteration_order (m_Observers (subject w)))
    ∧ memory w'
      = foldl (λ m p, from_option
                        (λ o, Observer.OnNotification o (subject w) tag m)
                        m (observers w !! p))
          (memory w) (iteration_order (m_Observers (subject w))).
Proof.
  intros Hlive. apply val_for_each_notify.
  intros p Hp. apply elem_of_dom, Hlive. by apply elem_of_iteration_order.
Qed.

Lemma val_SetValue_spec tag value (w : World) :
  registered_live w →
  ∃ w', SetValue tag value w = Some w'
    ∧ subject w' = assign tag value (subject w)
    ∧ observers w' = observers w
    ∧ calls w' = calls w ++ ((λ p, mkCall p (assign tag value (subject w)) tag)
                              <$> iteration_order (m_Observers (subject w)))
    ∧ memory w'
      = foldl (λ m p, from_option
                        (λ o, Observer.OnNotification o
                                (assign tag value (subject w)) tag m)
                        m (observers w !! p))
          (memory w) (iteration_order (m_Observers (subject w))).
Proof.
  intros Hlive. rewrite val_SetValue_unfold.
  destruct (val_SendNotification_spec tag
              (set_subject (assign tag value (subject w)) w))
    as (w' & Hrun & Hs & Hobs & Hc & Hm).
  - unfold registered_live in *. by destruct tag.
  - exists w'. split; [done|]. split; [done|]. split; [done|]. split.
    + rewrite Hc. by destruct tag.
    + rewrite Hm. by destruct tag.
Qed.


Lemma val_registered_from_header_live (w : World) :
  registered_from_header w → registered_live w.
Proof.
  intros Hw p Hp. destruct (Hw p Hp) as (o & t & x & Ho & _).
  apply elem_of_dom. by eexists.
Qed.

(** A setter leaves alone every variable that no registered callable
    writes. *)
Lemma val_SetValue_frame tag value x (w : World) :
  registered_live w →
  (∀ p o, p ∈ m_Observers (subject w) → observers w !! p = Some o →
          preserves x o) →
  ∃ w', SetValue tag value w = Some w'
    ∧ subject w' = assign tag value (subject w)
    ∧ observers w' = observers w
    ∧ memory w' !! x = memory w !! x.
Proof.
  intros Hlive Hframe.
  destruct (val_SetValue_spec tag value w Hlive)
    as (w' & Hrun & Hs & Hobs & _ & Hm).
  exists w'. repeat split; try done.
  rewrite Hm. apply val_foldl_frame.
  intros p o Hp Ho m'. apply (Hframe p o); [|done].
  by apply elem_of_iteration_order.
Qed.

Lemma val_registrations_spec regs (w : World) :
  same_but_registered w (registrations regs w)
  ∧ ∀ p, p ∈ m_Observers (subject (registrations regs w))
         ↔ net_attached (bool_decide (p ∈ m_Observers (subject w))) regs p
           = true.
Proof.
  revert w. induction regs as [|r regs IH]; intros w.
  - split; [by repeat split|]. intros p. simpl.
    by rewrite bool_decide_eq_true.
  - destruct (IH (register r w)) as [(Ha & Hb & Ho & Hc & Hl) Hmem].
    split.
    + unfold registrations in *. simpl.
      destruct r; repeat split; intros;
        rewrite ?Ha, ?Hb, ?Ho, ?Hc, ?Hl; done.
    + intros p. unfold registrations in *. simpl. rewrite Hmem.
      destruct r as [q|q]; simpl;
        (erewrite net_attached_ext; [reflexivity|]);
        destruct (decide (q = p)) as [->|Hne].
      * apply bool_decide_eq_true. set_solver.
      * apply bool_decide_ext. set_solver.
      * apply bool_decide_eq_false. set_solver.
      * apply bool_decide_ext. set_solver.
Qed.

Lemma val_times_called_new (s : SubjectSystem) tag (X : gset ptr) p :
  times_called p ((λ q, mkCall q s tag) <$> iteration_order X)
  = if decide (p ∈ X) then 1%nat else 0%nat.
Proof.
  unfold times_called. rewrite <- list_fmap_compose.
  change (call_observer ∘ _) with (@id ptr).
  rewrite list_fmap_id, count_occ_NoDup by apply NoDup_iteration_order.
  apply decide_ext, elem_of_iteration_order.
Qed.

(** Once a callable of the header has cached the broadcast value in [x], the
    callables that run after it leave that value there. *)
Lemma val_foldl_written (obs : gmap ptr Observer.t) s tag x (l : list ptr)
    (m : gmap variable Z) :
  (∀ q, q ∈ l → ∃ o t y, obs !! q = Some o ∧ caches o t y) →
  (m !! x = Some (GetValueOf tag s)
   ∨ ∃ p o, p ∈ l ∧ obs !! p = Some o ∧ caches o tag x) →
  foldl (λ m p, from_option (λ o, Observer.OnNotification o s tag m)
                  m (obs !! p)) m l !! x
  = Some (GetValueOf tag s).
Proof.
  revert m. induction l as [|q l IH]; intros m Hhdr Hx.
  - destruct Hx as [Hx|(p & o & Hp & _)]; [done|].
    by apply not_elem_of_nil in Hp.
  - simpl. apply IH; [intros q' Hq'; apply Hhdr; by right|].
    destruct (Hhdr q (list_elem_of_here _ _)) as (oq & t & y & Hoq & Hcq).
    rewrite Hoq. simpl.
    destruct Hx as [Hx|(p & o & Hp & Ho & Hc)].
    + left. rewrite (val_caches_spec _ _ _ Hcq).
      case_decide as Ht; [subst t|done].
      destruct (decide (y = x)) as [->|Hne].
      * by rewrite lookup_insert_eq.
      * by rewrite lookup_insert_ne.
    + apply elem_of_cons in Hp as [->|Hp].
      * left. assert (oq = o) as -> by congruence.
        rewrite (val_caches_spec _ _ _ Hc), decide_True by done.
        by rewrite lookup_insert_eq.
      * right. by exists p, o.
Qed.

(** A variable that no callable registered or attached by the program writes
    keeps its value while the program runs. *)
Lemma val_run_frame (ops : list Op) (x : variable) (w : World) :
  (∀ q, q ∈ m_Observers (subject w) ∨ Attach q ∈ ops →
        ∃ o, observers w !! q = Some o ∧ preserves x o) →
  ∃ w', run ops w = Some w' ∧ memory w' !! x = memory w !! x.
Proof.
  revert w. induction ops as [|op ops IH]; intros w Hlive.
  - by exists w.
  - assert (Hset : ∀ tag value, ∃ w1,
               SetValue tag value w = Some w1
               ∧ m_Observers (subject w1) = m_Observers (subject w)
               ∧ observers w1 = observers w
               ∧ memory w1 !! x = memory w !! x).
    { intros tag value.
      destruct (val_SetValue_frame tag value x w)
        as (w1 & Hrun & Hs & Hobs & Hm).
      { intros q Hq. apply elem_of_dom.
        destruct (Hlive q) as (o & Ho & _); [by left|by eexists]. }
      { intros q o Hq Ho.
        destruct (Hlive q) as (o' & Ho' & Hpres); [by left|congruence]. }
      exists w1. split; [done|]. split; [rewrite Hs; by destruct tag|].
      by split. }
    simpl. destruct op as [q|q|value|value]; simpl.
    + destruct (IH (AttachObserver q w)) as (w' & Hrun' & Hm');
        simpl; [|by exists w'].
      intros q' [Hq'|Hq']; apply Hlive; [|by right; right].
      apply elem_of_union in Hq' as [Hq'|Hq']; [|by left].
      apply elem_of_singleton in Hq' as ->. right. by left.
    + destruct (IH (DetachObserver q w)) as (w' & Hrun' & Hm');
        simpl; [|by exists w'].
      intros q' [Hq'|Hq']; apply Hlive; [|by right; right].
      left. set_solver.
    + destruct (Hset ValueA value) as (w1 & Hrun & Hreg & Hobs & Hm).
      simpl in Hrun. rewrite Hrun.
      destruct (IH w1) as (w' & Hrun' & Hm').
      * intros q' Hq'. rewrite Hobs. apply Hlive. rewrite Hreg in Hq'.
        destruct Hq' as [?|?]; [by left|by right; right].
      * exists w'. split; [done|]. by rewrite Hm'.
    + destruct (Hset ValueB value) as (w1 & Hrun & Hreg & Hobs & Hm).
      simpl in Hrun. rewrite Hrun.
      destruct (IH w1) as (w' & Hrun' & Hm').
      * intros q' Hq'. rewrite Hobs. apply Hlive. rewrite Hreg in Hq'.
        destruct Hq' as [?|?]; [by left|by right; right].
      * exists w'. split; [done|]. by rewrite Hm'.
Qed.

Lemma val_caches_preserves o t y x :
  caches o t y → y ≠ x → preserves x o.
Proof.
  intros Hc Hne s tag m. rewrite (val_caches_spec _ _ _ Hc).
  case_decide; [|done]. by rewrite lookup_insert_ne.
Qed.

End value_facts.

(** ** The two variants in lockstep *)

Section correspondence_facts.
Context (var_of : ptr → ValueSemantics.variable).

Lemma ref_for_each_notify_live tag (l : list ptr)
    (w w' : ReferenceSemantics.World) (q : ptr) :
  for_each (ReferenceSemantics.notify tag) l w = Some w' →
  is_Some (ReferenceSemantics.objects w !! q) →
  is_Some (ReferenceSemantics.objects w' !! q).
Proof.
  revert w. induction l as [|x l IH]; intros w Hrun Hq; simpl in Hrun.
  - congruence.
  - unfold ReferenceSemantics.notify in Hrun at 1.
    destruct (ReferenceSemantics.objects w !! x) as [o|] eqn:Ho; [|done].
    apply (IH _ Hrun). simpl.
    destruct (decide (x = q)) as [->|Hne].
    + rewrite lookup_insert_eq. by eexists.
    + by rewrite lookup_insert_ne.
Qed.

Lemma ref_step_live op (w w' : ReferenceSemantics.World) (q : ptr) :
  ReferenceSemantics.step op w = Some w' →
  is_Some (ReferenceSemantics.objects w !! q) →
  is_Some (ReferenceSemantics.objects w' !! q).
Proof.
  destruct op as [p|p|value|value]; simpl.
  - by intros [= <-].
  - by intros [= <-].
  - intros Hrun Hq. by apply (ref_for_each_notify_live _ _ _ _ _ Hrun).
  - intros Hrun Hq. by apply (ref_for_each_notify_live _ _ _ _ _ Hrun).
Qed.

Lemma corr_notify tag (p : ptr) wr wv :
  corresponding var_of wr wv →
  option_Forall2 (corresponding var_of)
    (ReferenceSemantics.notify tag p wr)
    (ValueSemantics.notify (tag_value tag) p wv).
Proof.
  intros [HX HA HB Habs Hpres Hsep].
  unfold ReferenceSemantics.notify, ValueSemantics.notify.
  destruct (ReferenceSemantics.objects wr !! p) as [o|] eqn:Ho.
  - destruct (Hpres p o Ho) as (f & Hf & Hkind & Hmem).
    rewrite Hf. constructor.
    set (t := match o with
              | ReferenceSemantics.ObjectA _ => ValueSemantics.ValueA
              | ReferenceSemantics.ObjectB _ => ValueSemantics.ValueB
              end).
    assert (Hcaches : ValueSemantics.caches f t (var_of p))
      by (by destruct o).
    constructor; simpl; try done.
    + intros q Hq. apply lookup_insert_None in Hq as [Hq _]. by apply Habs.
    + intros q o' Hq.
      apply lookup_insert_Some in Hq as [[<- <-]|[Hne Hq]].
      * exists f. split; [done|]. split; [by destruct o|].
        rewrite (val_caches_spec _ _ _ Hcaches). subst t.
        destruct o as [a|b], tag; simpl in *;
          rewrite ?lookup_insert_eq; try done;
          unfold ValueSemantics.GetValueA, ValueSemantics.GetValueB,
            ReferenceSemantics.GetValueA, ReferenceSemantics.GetValueB;
          congruence.
      * destruct (Hpres q o' Hq) as (f' & Hf' & Hkind' & Hmem').
        exists f'. split; [done|]. split; [done|].
        rewrite (val_caches_spec _ _ _ Hcaches).
        case_decide; [|done].
        rewrite lookup_insert_ne; [done|].
        intros Heq. apply Hne, Hsep; [by eexists|by eexists|done].
    + intros q1 q2 H1 H2. apply Hsep.
      * destruct (decide (p = q1)) as [<-|?]; [by eexists|].
        by rewrite lookup_insert_ne in H1.
      * destruct (decide (p = q2)) as [<-|?]; [by eexists|].
        by rewrite lookup_insert_ne in H2.
  - rewrite (Habs p Ho). constructor.
Qed.

Lemma corr_for_each tag (l : list ptr) wr wv :
  corresponding var_of wr wv →
  option_Forall2 (corresponding var_of)
    (for_each (ReferenceSemantics.notify tag) l wr)
    (for_each (ValueSemantics.notify (tag_value tag)) l wv).
Proof.
  revert wr wv. induction l as [|x l IH]; intros wr wv Hcorr; simpl.
  - by constructor.
  - destruct (corr_notify tag x wr wv Hcorr) as [wr' wv' Hcorr'|].
    + by apply IH.
    + constructor.
Qed.

Lemma corr_step op wr wv :
  corresponding var_of wr wv →
  option_Forall2 (corresponding var_of)
    (ReferenceSemantics.step op wr) (ValueSemantics.step op wv).
Proof.
  intros Hcorr. pose proof Hcorr as [HX HA HB Habs Hpres Hsep].
  destruct op as [p|p|value|value]; simpl.
  - constructor. constructor; simpl; try done. by rewrite HX.
  - constructor. constructor; simpl; try done. by rewrite HX.
  - unfold ReferenceSemantics.SetValueA, ValueSemantics.SetValueA,
      ReferenceSemantics.SendNotification, ValueSemantics.SendNotification.
    simpl. rewrite HX.
    apply (corr_for_each ReferenceSemantics.ValueA).
    by constructor.
  - unfold ReferenceSemantics.SetValueB, ValueSemantics.SetValueB,
      ReferenceSemantics.SendNotification, ValueSemantics.SendNotification.
    simpl. rewrite HX.
    apply (corr_for_each ReferenceSemantics.ValueB).
    by constructor.
Qed.

Lemma corr_observe (handles : list ptr) wr wv :
  corresponding var_of wr wv →
  (∀ p, p ∈ handles → is_Some (ReferenceSemantics.objects wr !! p)) →
  ReferenceSemantics.observe handles wr
  = ValueSemantics.observe (var_of <$> handles) wv.
Proof.
  intros [HX HA HB Habs Hpres Hsep] Hlive.
  unfold ReferenceSemantics.observe, ValueSemantics.observe.
  unfold ReferenceSemantics.GetValueA, ReferenceSemantics.GetValueB,
    ValueSemantics.GetValueA, ValueSemantics.GetValueB.
  rewrite HA, HB. f_equal.
  rewrite <- list_fmap_compose. apply list_fmap_ext.
  intros i p Hp. simpl.
  destruct (Hlive p) as [o Ho]; [by eapply list_elem_of_lookup_2|].
  destruct (Hpres p o Ho) as (f & _ & _ & Hmem).
  unfold ReferenceSemantics.cached. by rewrite Ho, Hmem.
Qed.

Lemma corr_observations (handles : list ptr) (ops : list Op) wr wv :
  corresponding var_of wr wv →
  (∀ p, p ∈ handles → is_Some (ReferenceSemantics.objects wr !! p)) →
  ReferenceSemantics.observations handles ops wr
  = ValueSemantics.observations (var_of <$> handles) ops wv.
Proof.
  revert wr wv. induction ops as [|op ops IH]; intros wr wv Hcorr Hlive.
  - done.
  - simpl.
    pose proof (corr_step op wr wv Hcorr) as Hstep.
    destruct (ReferenceSemantics.step op wr) as [wr'|] eqn:Hr;
      destruct (ValueSemantics.step op wv) as [wv'|] eqn:Hv;
      inversion Hstep as [? ? Hcorr'|]; subst; [|done].
    assert (Hlive' : ∀ p, p ∈ handles →
              is_Some (ReferenceSemantics.objects wr' !! p)).
    { intros p Hp. eapply ref_step_live; [exact Hr|by apply Hlive]. }
    f_equal; [f_equal; by apply corr_observe|by apply IH].
Qed.

End correspondence_facts.

(** ** The unit tests at any addresses *)

Section unit_test_facts.
Context (a b bb : ptr) (n : N).
Context (Hab : a ≠ b) (Habb : a ≠ bb) (Hbbb : b ≠ bb).

Lemma reference_test_scenario_at :
  ReferenceSemantics.observations [a; b; bb] (test_program_at bb)
    (reference_test_attached_at a b bb)
  = test_expected.
Proof.
  unfold test_program_at.
  cbn [ReferenceSemantics.observations ReferenceSemantics.step].
  set (w0 := reference_test_attached_at a b bb).
  assert (Ha0 : ReferenceSemantics.objects w0 !! a
                = Some (ReferenceSemantics.ObjectA
                          ReferenceSemantics.SubjectObserverA.new))
    by (simpl; by simplify_map_eq).
  assert (Hb0 : ReferenceSemantics.objects w0 !! b
                = Some (ReferenceSemantics.ObjectB
                          ReferenceSemantics.SubjectObserverB.new))
    by (simpl; by simplify_map_eq).
  assert (Hbb0 : ReferenceSemantics.objects w0 !! bb
                 = Some (ReferenceSemantics.ObjectB
                           ReferenceSemantics.SubjectObserverB.new))
    by (simpl; by simplify_map_eq).
  (* SetValueA(1) *)
  destruct (ref_SetValue_three ReferenceSemantics.ValueA 1 a b bb w0
              _ _ _ Ha0 Hb0 Hbb0)
    as (w1 & Hrun1 & Hs1 & Ha1 & Hb1 & Hbb1); [simpl; set_solver|].
  simpl in Hrun1. rewrite Hrun1.
  rewrite decide_True in Ha1 by (simpl; set_solver).
  rewrite decide_True in Hb1 by (simpl; set_solver).
  rewrite decide_True in Hbb1 by (simpl; set_solver).
  rewrite ref_OnNotification_eq in Ha1, Hb1, Hbb1.
  simpl in Hs1, Ha1, Hb1, Hbb1.
  rewrite (ref_observe_three a b bb w1 _ _ _ Ha1 Hb1 Hbb1), Hs1.
  (* SetValueB(2) *)
  destruct (ref_SetValue_three ReferenceSemantics.ValueB 2 a b bb w1
              _ _ _ Ha1 Hb1 Hbb1)
    as (w2 & Hrun2 & Hs2 & Ha2 & Hb2 & Hbb2); [rewrite Hs1; simpl; set_solver|].
  simpl in Hrun2. rewrite Hrun2.
  rewrite Hs1 in Hs2, Ha2, Hb2, Hbb2.
  rewrite decide_True in Ha2 by (simpl; set_solver).
  rewrite decide_True in Hb2 by (simpl; set_solver).
  rewrite decide_True in Hbb2 by (simpl; set_solver).
  rewrite ref_OnNotification_eq in Ha2, Hb2, Hbb2.
  simpl in Hs2, Ha2, Hb2, Hbb2.
  rewrite (ref_observe_three a b bb w2 _ _ _ Ha2 Hb2 Hbb2), Hs2.
  (* DetachObserver(&observerBB) *)
  set (w3 := ReferenceSemantics.DetachObserver bb w2).
  rewrite (ref_observe_three a b bb w3 _ _ _ Ha2 Hb2 Hbb2).
  (* SetValueB(3) *)
  destruct (ref_SetValue_three ReferenceSemantics.ValueB 3 a b bb w3
              _ _ _ Ha2 Hb2 Hbb2)
    as (w4 & Hrun4 & Hs4 & Ha4 & Hb4 & Hbb4);
    [simpl; rewrite Hs2; simpl; set_solver|].
  simpl in Hrun4. rewrite Hrun4.
  simpl in Hs4, Ha4, Hb4, Hbb4. rewrite Hs2 in Hs4, Ha4, Hb4, Hbb4.
  rewrite decide_True in Ha4 by (simpl; set_solver).
  rewrite decide_True in Hb4 by (simpl; set_solver).
  rewrite decide_False in Hbb4 by (simpl; set_solver).
  rewrite ref_OnNotification_eq in Ha4, Hb4.
  simpl in Hs4, Ha4, Hb4.
  rewrite (ref_observe_three a b bb w4 _ _ _ Ha4 Hb4 Hbb4), Hs4.
  subst w3. simpl. rewrite Hs2. reflexivity.
Qed.

Lemma test_var_of_at_a :
  test_var_of_at b bb n a = ValueSemantics.m_Value_of a.
Proof. unfold test_var_of_at. by rewrite !decide_False by done. Qed.

Lemma test_var_of_at_b :
  test_var_of_at b bb n b = ValueSemantics.automatic n.
Proof. unfold test_var_of_at. by rewrite decide_True by done. Qed.

Lemma test_var_of_at_bb :
  test_var_of_at b bb n bb = ValueSemantics.freeFuncValueB.
Proof.
  unfold test_var_of_at.
  by rewrite decide_False, decide_True by done.
Qed.

Lemma test_live_handles_at (p : ptr) :
  is_Some (ReferenceSemantics.objects (reference_test_attached_at a b bb) !! p)
  → p = a ∨ p = b ∨ p = bb.
Proof.
  unfold reference_test_attached_at, reference_test_declared_at. simpl.
  rewrite !lookup_insert_is_Some, lookup_empty, is_Some_alt. naive_solver.
Qed.

Lemma test_worlds_corresponding_at :
  corresponding (test_var_of_at b bb n)
    (reference_test_attached_at a b bb) (value_test_attached_at a b bb n).
Proof.
  constructor.
  - reflexivity.
  - reflexivity.
  - reflexivity.
  - intros p.
    unfold reference_test_attached_at, reference_test_declared_at.
    unfold value_test_attached_at, value_test_declared_at.
    simpl. rewrite !lookup_insert_None. intros [[[_ ?] ?] ?].
    by repeat split.
  - intros p o Ho.
    destruct (test_live_handles_at p) as [->|[->| ->]]; [by eexists| | |].
    + exists (ValueSemantics.SubjectObserverA.new a).
      rewrite test_var_of_at_a.
      unfold reference_test_attached_at, reference_test_declared_at in Ho.
      unfold value_test_attached_at, value_test_declared_at.
      simpl in *. simplify_map_eq.
      split; [done|]. split; [constructor|done].
    + exists (ValueSemantics.Observer.mk (ValueSemantics.lambdaB n)).
      rewrite test_var_of_at_b.
      unfold reference_test_attached_at, reference_test_declared_at in Ho.
      unfold value_test_attached_at, value_test_declared_at.
      simpl in *. simplify_map_eq.
      split; [done|]. split; [constructor|done].
    + exists (ValueSemantics.Observer.mk ValueSemantics.OnNotification).
      rewrite test_var_of_at_bb.
      unfold reference_test_attached_at, reference_test_declared_at in Ho.
      unfold value_test_attached_at, value_test_declared_at.
      simpl in *. simplify_map_eq.
      split; [done|]. split; [constructor|done].
  - intros p q Hp Hq.
    destruct (test_live_handles_at p Hp) as [->|[->| ->]];
      destruct (test_live_handles_at q Hq) as [->|[->| ->]];
      rewrite ?test_var_of_at_a, ?test_var_of_at_b, ?test_var_of_at_bb;
      done.
Qed.

Lemma value_test_scenario_at :
  ValueSemantics.observations (test_watched_at a n) (test_program_at bb)
    (value_test_attached_at a b bb n)
  = test_expected.
Proof.
  rewrite <- reference_test_scenario_at.
  replace (test_watched_at a n) with (test_var_of_at b bb n <$> [a; b; bb])
    by (simpl; by rewrite test_var_of_at_a, test_var_of_at_b,
                  test_var_of_at_bb).
  symmetry. apply corr_observations.
  - apply test_worlds_corresponding_at.
  - intros p Hp.
    unfold reference_test_attached_at, reference_test_declared_at. simpl.
    rewrite !elem_of_cons, elem_of_nil in Hp.
    destruct Hp as [->|[->|[->|[]]]]; simplify_map_eq; by eexists.
Qed.

Lemma reference_test_initial_at :
  ReferenceSemantics.observe [a; b; bb] (reference_test_attached_at a b bb)
  = (0, 0, [Some 0; Some 0; Some 0]).
Proof.
  unfold ReferenceSemantics.observe, ReferenceSemantics.cached.
  unfold reference_test_attached_at, reference_test_declared_at. simpl.
  by simplify_map_eq.
Qed.

Lemma value_test_initial_at :
  ValueSemantics.observe (test_watched_at a n)
    (value_test_attached_at a b bb n)
  = (0, 0, [Some 0; Some 0; Some 0]).
Proof.
  unfold ValueSemantics.observe.
  unfold value_test_attached_at, value_test_declared_at. simpl.
  by simplify_map_eq.
Qed.

End unit_test_facts.

(** ** The worlds of the unit tests *)

Lemma reference_test_attached_live :
  ReferenceSemantics.registered_live reference_test_attached.
Proof. apply (bool_decide_unpack _). vm_compute. exact I. Qed.

Lemma value_test_attached_live :
  ValueSemantics.registered_live value_test_attached.
Proof. apply (bool_decide_unpack _). vm_compute. exact I. Qed.

Lemma value_test_attached_from_header :
  ValueSemantics.registered_from_header value_test_attached.
Proof.
  intros p Hp.
  assert (p = 1%N ∨ p = 2%N ∨ p = 3%N) as [->|[->| ->]]
    by (revert Hp; unfold value_test_attached; simpl; set_solver).
  - exists (ValueSemantics.SubjectObserverA.new 1), ValueSemantics.ValueA,
      (ValueSemantics.m_Value_of 1).
    split; [reflexivity|constructor].
  - exists (ValueSemantics.Observer.mk (ValueSemantics.lambdaB 0)),
      ValueSemantics.ValueB, (ValueSemantics.automatic 0).
    split; [reflexivity|constructor].
  - exists (ValueSemantics.Observer.mk ValueSemantics.OnNotification),
      ValueSemantics.ValueB, ValueSemantics.freeFuncValueB.
    split; [reflexivity|constructor].
Qed.

Lemma test_worlds_corresponding :
  corresponding test_var_of reference_test_attached value_test_attached.
Proof. by apply test_worlds_corresponding_at. Qed.

(** * The claims *)

(** C9: a freshly constructed [SubjectSystem] has [GetValueA() == 0] and
    [GetValueB() == 0], and a freshly constructed concrete observer has the
    cached value 0, in both variants.  The value variant has no class
    [SubjectObserverB]; the variables its [ValueB] callables cache in are
    declared with the initialiser 0 as well. *)
Theorem C9_fresh_values_are_zero :
  ReferenceSemantics.GetValueA ReferenceSemantics.SubjectSystem_new = 0
  ∧ ReferenceSemantics.GetValueB ReferenceSemantics.SubjectSystem_new = 0
  ∧ ReferenceSemantics.SubjectObserverA.GetValue
      ReferenceSemantics.SubjectObserverA.new = 0
  ∧ ReferenceSemantics.SubjectObserverB.GetValue
      ReferenceSemantics.SubjectObserverB.new = 0
  ∧ (∀ this w,
       ReferenceSemantics.cached this
         (ReferenceSemantics.declare_SubjectObserverA this w) = Some 0
       ∧ ReferenceSemantics.cached this
           (ReferenceSemantics.declare_SubjectObserverB this w) = Some 0)
  ∧ ValueSemantics.GetValueA ValueSemantics.SubjectSystem_new = 0
  ∧ ValueSemantics.GetValueB ValueSemantics.SubjectSystem_new = 0
  ∧ (∀ this w,
       ValueSemantics.SubjectObserverA.GetValue this
         (ValueSemantics.memory
            (ValueSemantics.declare_SubjectObserverA this w)) = Some 0)
  ∧ (∀ x w,
       ValueSemantics.memory (ValueSemantics.declare_int32_t x 0 w) !! x
       = Some 0).
Proof.
  repeat split; try reflexivity.
  - unfold ReferenceSemantics.cached. simpl. by rewrite lookup_insert_eq.
  - unfold ReferenceSemantics.cached. simpl. by rewrite lookup_insert_eq.
  - intros this w. unfold ValueSemantics.SubjectObserverA.GetValue. simpl.
    by rewrite lookup_insert_eq.
  - intros x w. simpl. by rewrite lookup_insert_eq.
Qed.

(** C4: [AttachObserver] is idempotent.  Attaching a handle a second time
    succeeds and leaves the world exactly as the first attach left it, in
    both variants. *)
Theorem C4_attach_idempotent (p : ptr)
    (wr : ReferenceSemantics.World) (wv : ValueSemantics.World) :
  ReferenceSemantics.AttachObserver p (ReferenceSemantics.AttachObserver p wr)
  = ReferenceSemantics.AttachObserver p wr
  ∧ ReferenceSemantics.run [Attach p; Attach p] wr
    = ReferenceSemantics.run [Attach p] wr
  ∧ is_Some (ReferenceSemantics.run [Attach p; Attach p] wr)
  ∧ ValueSemantics.AttachObserver p (ValueSemantics.AttachObserver p wv)
    = ValueSemantics.AttachObserver p wv
  ∧ ValueSemantics.run [Attach p; Attach p] wv
    = ValueSemantics.run [Attach p] wv
  ∧ is_Some (ValueSemantics.run [Attach p; Attach p] wv).
Proof.
  assert (Hset : ∀ X : gset ptr, {[p]} ∪ ({[p]} ∪ X) = {[p]} ∪ X)
    by (intros X; set_solver).
  assert (HR : ReferenceSemantics.AttachObserver p
                 (ReferenceSemantics.AttachObserver p wr)
               = ReferenceSemantics.AttachObserver p wr).
  { unfold ReferenceSemantics.AttachObserver, ReferenceSemantics.set_subject.
    simpl. by rewrite Hset. }
  assert (HV : ValueSemantics.AttachObserver p
                 (ValueSemantics.AttachObserver p wv)
               = ValueSemantics.AttachObserver p wv).
  { unfold ValueSemantics.AttachObserver, ValueSemantics.set_subject.
    simpl. by rewrite Hset. }
  repeat split; simpl; try done; try (by rewrite ?HR, ?HV); by eexists.
Qed.

(** C5: detaching a handle that is not in the registered set is a no-op.  It
    succeeds and returns the world unchanged, hence the registered set and
    the membership of every other handle with it, in both variants. *)
Theorem C5_detach_absent_is_noop (p : ptr)
    (wr : ReferenceSemantics.World) (wv : ValueSemantics.World) :
  p ∉ ReferenceSemantics.m_Observers (ReferenceSemantics.subject wr) →
  p ∉ ValueSemantics.m_Observers (ValueSemantics.subject wv) →
  ReferenceSemantics.step (Detach p) wr = Some wr
  ∧ ValueSemantics.step (Detach p) wv = Some wv.
Proof.
  intros Hr Hv.
  assert (Hset : ∀ X : gset ptr, p ∉ X → X ∖ {[p]} = X)
    by (intros X HX; set_solver).
  split; simpl; f_equal.
  - destruct wr as [[X a b] objs cs]. simpl in *.
    unfold ReferenceSemantics.DetachObserver, ReferenceSemantics.set_subject.
    simpl. by rewrite Hset.
  - destruct wv as [[X a b] obs mem cs]. simpl in *.
    unfold ValueSemantics.DetachObserver, ValueSemantics.set_subject.
    simpl. by rewrite Hset.
Qed.

Lemma C5_detach_absent_is_noop_witness :
  (7%N ∉ ReferenceSemantics.m_Observers
           (ReferenceSemantics.subject reference_test_attached))
  ∧ (7%N ∉ ValueSemantics.m_Observers
             (ValueSemantics.subject value_test_attached))
  ∧ ReferenceSemantics.step (Detach 7) reference_test_attached
    = Some reference_test_attached
  ∧ ValueSemantics.step (Detach 7) value_test_attached
    = Some value_test_attached.
Proof.
  assert (Hr : 7%N ∉ ReferenceSemantics.m_Observers
                       (ReferenceSemantics.subject reference_test_attached))
    by (apply (bool_decide_unpack _); vm_compute; exact I).
  assert (Hv : 7%N ∉ ValueSemantics.m_Observers
                       (ValueSemantics.subject value_test_attached))
    by (apply (bool_decide_unpack _); vm_compute; exact I).
  split; [exact Hr|]. split; [exact Hv|].
  exact (C5_detach_absent_is_noop 7 reference_test_attached
           value_test_attached Hr Hv).
Defined.

(** C10: [AttachObserver] and [DetachObserver] deliver no notification and
    leave [ValueA], [ValueB], every observer object, every cached value and
    the call log as they were; only the registered set may change. *)
Theorem C10_registration_frame (p : ptr)
    (wr : ReferenceSemantics.World) (wv : ValueSemantics.World) :
  ReferenceSemantics.same_but_registered wr
    (ReferenceSemantics.AttachObserver p wr)
  ∧ ReferenceSemantics.same_but_registered wr
      (ReferenceSemantics.DetachObserver p wr)
  ∧ ValueSemantics.same_but_registered wv
      (ValueSemantics.AttachObserver p wv)
  ∧ ValueSemantics.same_but_registered wv
      (ValueSemantics.DetachObserver p wv).
Proof. by repeat split. Qed.

(** Both unit tests, run at the addresses 1, 2 and 3. *)
Example unit_tests_run :
  ReferenceSemantics.observations [1; 2; 3]%N test_program
    reference_test_attached = test_expected
  ∧ ValueSemantics.observations test_watched test_program value_test_attached
    = test_expected.
Proof. split; vm_compute; reflexivity. Qed.

(** C1: the scenario of the two unit tests, wherever the three observers
    live.  With observers A, B and BB attached to a fresh subject, the calls
    [SetValueA(1)], [SetValueB(2)], [DetachObserver(BB)], [SetValueB(3)]
    give, after each call, the getters and the caches of A, B, BB listed
    here: A reads 1 and B, BB stay 0; then B and BB read 2 and A stays 1;
    then B reads 3, BB keeps 2 and A keeps 1, with [GetValueA() == 1] and
    [GetValueB() == 3]. *)
Theorem C1_unit_test_scenario (a b bb : ptr) (n : N) :
  a ≠ b → a ≠ bb → b ≠ bb →
  ReferenceSemantics.observe [a; b; bb] (reference_test_attached_at a b bb)
  = (0, 0, [Some 0; Some 0; Some 0])
  ∧ ReferenceSemantics.observations [a; b; bb]
      [SetA 1; SetB 2; Detach bb; SetB 3]
      (reference_test_attached_at a b bb)
    = [Some (1, 0, [Some 1; Some 0; Some 0]);
       Some (1, 2, [Some 1; Some 2; Some 2]);
       Some (1, 2, [Some 1; Some 2; Some 2]);
       Some (1, 3, [Some 1; Some 3; Some 2])]
  ∧ ValueSemantics.observe (test_watched_at a n)
      (value_test_attached_at a b bb n)
    = (0, 0, [Some 0; Some 0; Some 0])
  ∧ ValueSemantics.observations (test_watched_at a n)
      [SetA 1; SetB 2; Detach bb; SetB 3]
      (value_test_attached_at a b bb n)
    = [Some (1, 0, [Some 1; Some 0; Some 0]);
       Some (1, 2, [Some 1; Some 2; Some 2]);
       Some (1, 2, [Some 1; Some 2; Some 2]);
       Some (1, 3, [Some 1; Some 3; Some 2])].
Proof.
  intros Hab Habb Hbbb.
  split; [by apply reference_test_initial_at|].
  split; [by apply reference_test_scenario_at|].
  split; [by apply value_test_initial_at|].
  by apply value_test_scenario_at.
Qed.

Lemma C1_unit_test_scenario_witness :
  (1 ≠ 2 ∧ 1 ≠ 3 ∧ 2 ≠ 3)%N
  ∧ ReferenceSemantics.observations [1; 2; 3]%N test_program
      reference_test_attached
    = [Some (1, 0, [Some 1; Some 0; Some 0]);
       Some (1, 2, [Some 1; Some 2; Some 2]);
       Some (1, 2, [Some 1; Some 2; Some 2]);
       Some (1, 3, [Some 1; Some 3; Some 2])]
  ∧ ValueSemantics.observations test_watched test_program value_test_attached
    = [Some (1, 0, [Some 1; Some 0; Some 0]);
       Some (1, 2, [Some 1; Some 2; Some 2]);
       Some (1, 2, [Some 1; Some 2; Some 2]);
       Some (1, 3, [Some 1; Some 3; Some 2])].
Proof.
  assert (H12 : (1 ≠ 2)%N) by discriminate.
  assert (H13 : (1 ≠ 3)%N) by discriminate.
  assert (H23 : (2 ≠ 3)%N) by discriminate.
  split; [by repeat split|].
  destruct (C1_unit_test_scenario 1 2 3 0 H12 H13 H23)
    as (_ & Href & _ & Hval).
  split; [exact Href|exact Hval].
Defined.

(** C3: after any sequence of [AttachObserver] and [DetachObserver] calls, a
    broadcast made by a setter invokes [OnNotification] exactly once on every
    handle whose net state is attached and on no other handle.  The handles
    visited are the net-attached ones, each once; the call log grows by one
    call per handle visited; and the invocations show in the state: in the
    reference variant the object at a net-attached handle is the result of
    its [OnNotification] and every other object is as before, in the value
    variant the memory is what running the callables of the visited handles
    in turn leaves.  The handles that end attached must point to live
    observers, as the subject requires; the registrations themselves add
    nothing to the call log. *)
Theorem C3_broadcast_reaches_net_attached
    (regs : list Registration) (tag : ReferenceSemantics.SubjectSystemTag)
    (value : Z) (wr : ReferenceSemantics.World) (wv : ValueSemantics.World) :
  (∀ p, net_attached
          (bool_decide (p ∈ ReferenceSemantics.m_Observers
                              (ReferenceSemantics.subject wr))) regs p = true →
        is_Some (ReferenceSemantics.objects wr !! p)) →
  (∀ p, net_attached
          (bool_decide (p ∈ ValueSemantics.m_Observers
                              (ValueSemantics.subject wv))) regs p = true →
        is_Some (ValueSemantics.observers wv !! p)) →
  (∃ wr' new visited,
      ReferenceSemantics.SetValue tag value
        (ReferenceSemantics.registrations regs wr) = Some wr'
      ∧ ReferenceSemantics.calls wr' = ReferenceSemantics.calls wr ++ new
      ∧ (∀ p, ReferenceSemantics.times_called p new
              = if net_attached
                     (bool_decide (p ∈ ReferenceSemantics.m_Observers
                                         (ReferenceSemantics.subject wr)))
                     regs p
                then 1%nat else 0%nat)
      ∧ ReferenceSemantics.subject wr'
        = ReferenceSemantics.assign tag value
            (ReferenceSemantics.subject
               (ReferenceSemantics.registrations regs wr))
      ∧ NoDup visited
      ∧ (∀ p, p ∈ visited
              ↔ net_attached
                  (bool_decide (p ∈ ReferenceSemantics.m_Observers
                                      (ReferenceSemantics.subject wr)))
                  regs p = true)
      ∧ new = (λ p, ReferenceSemantics.mkCall p
                      (ReferenceSemantics.subject wr') tag) <$> visited
      ∧ (∀ p, ReferenceSemantics.objects wr' !! p
              = if net_attached
                     (bool_decide (p ∈ ReferenceSemantics.m_Observers
                                         (ReferenceSemantics.subject wr)))
                     regs p
                then (λ o, ReferenceSemantics.OnNotification o
                             (ReferenceSemantics.subject wr') tag)
                       <$> ReferenceSemantics.objects wr !! p
                else ReferenceSemantics.objects wr !! p))
  ∧ (∃ wv' new visited,
      ValueSemantics.SetValue (tag_value tag) value
        (ValueSemantics.registrations regs wv) = Some wv'
      ∧ ValueSemantics.calls wv' = ValueSemantics.calls wv ++ new
      ∧ (∀ p, ValueSemantics.times_called p new
              = if net_attached
                     (bool_decide (p ∈ ValueSemantics.m_Observers
                                         (ValueSemantics.subject wv)))
                     regs p
                then 1%nat else 0%nat)
      ∧ ValueSemantics.subject wv'
        = ValueSemantics.assign (tag_value tag) value
            (ValueSemantics.subject (ValueSemantics.registrations regs wv))
      ∧ NoDup visited
      ∧ (∀ p, p ∈ visited
              ↔ net_attached
                  (bool_decide (p ∈ ValueSemantics.m_Observers
                                      (ValueSemantics.subject wv)))
                  regs p = true)
      ∧ new = (λ p, ValueSemantics.mkCall p
                      (ValueSemantics.subject wv') (tag_value tag))
              <$> visited
      ∧ ValueSemantics.observers wv' = ValueSemantics.observers wv
      ∧ ValueSemantics.memory wv'
        = foldl (λ m p, from_option
                          (λ o, ValueSemantics.Observer.OnNotification o
                                  (ValueSemantics.subject wv')
                                  (tag_value tag) m)
                          m (ValueSemantics.observers wv !! p))
            (ValueSemantics.memory wv) visited).
Proof.
  intros Hr Hv. split.
  - destruct (ref_registrations_spec regs wr)
      as [(_ & _ & Ho & _ & Hl) Hmem].
    destruct (ref_SetValue_spec tag value
                (ReferenceSemantics.registrations regs wr))
      as (wr' & Hrun & Hs & Hc & Hobj).
    { intros p Hp. apply elem_of_dom. rewrite Ho. by apply Hr, Hmem. }
    eexists wr', _,
      (iteration_order
         (ReferenceSemantics.m_Observers
            (ReferenceSemantics.subject
               (ReferenceSemantics.registrations regs wr)))).
    split; [done|]. split; [by rewrite Hc, Hl|]. split.
    { intros p. rewrite ref_times_called_new.
      destruct (net_attached _ regs p) eqn:Hnet.
      - by rewrite decide_True by (by apply Hmem).
      - rewrite decide_False; [done|]. rewrite Hmem. congruence. }
    split; [done|]. split; [apply NoDup_iteration_order|]. split.
    { intros p. by rewrite elem_of_iteration_order, Hmem. }
    split; [by rewrite Hs|].
    intros p. rewrite Hobj, Ho, Hs.
    destruct (net_attached _ regs p) eqn:Hnet.
    + by rewrite decide_True by (by apply Hmem).
    + rewrite decide_False; [done|]. rewrite Hmem. congruence.
  - destruct (val_registrations_spec regs wv)
      as [(_ & _ & Ho & Hmm & Hl) Hmem].
    destruct (val_SetValue_spec (tag_value tag) value
                (ValueSemantics.registrations regs wv))
      as (wv' & Hrun & Hs & Hobs & Hc & Hm).
    { intros p Hp. apply elem_of_dom. rewrite Ho. by apply Hv, Hmem. }
    eexists wv', _,
      (iteration_order
         (ValueSemantics.m_Observers
            (ValueSemantics.subject
               (ValueSemantics.registrations regs wv)))).
    split; [done|]. split; [by rewrite Hc, Hl|]. split.
    { intros p. rewrite val_times_called_new.
      destruct (net_attached _ regs p) eqn:Hnet.
      - by rewrite decide_True by (by apply Hmem).
      - rewrite decide_False; [done|]. rewrite Hmem. congruence. }
    split; [done|]. split; [apply NoDup_iteration_order|]. split.
    { intros p. by rewrite elem_of_iteration_order, Hmem. }
    split; [by rewrite Hs|]. split; [by rewrite Hobs, Ho|].
    by rewrite Hm, Hmm, Ho, Hs.
Qed.

Lemma C3_broadcast_reaches_net_attached_witness :
  ∃ wr' wv' newr newv,
    ReferenceSemantics.SetValue ReferenceSemantics.ValueB 5
      (ReferenceSemantics.registrations test_registrations
         reference_test_declared) = Some wr'
    ∧ ReferenceSemantics.calls wr' = newr
    ∧ ReferenceSemantics.times_called 1 newr = 0%nat
    ∧ ReferenceSemantics.times_called 2 newr = 1%nat
    ∧ ReferenceSemantics.times_called 3 newr = 1%nat
    ∧ ReferenceSemantics.times_called 4 newr = 0%nat
    ∧ ReferenceSemantics.cached 1 wr' = Some 0
    ∧ ReferenceSemantics.cached 2 wr' = Some 5
    ∧ ReferenceSemantics.cached 3 wr' = Some 5
    ∧ ValueSemantics.SetValue ValueSemantics.ValueB 5
        (ValueSemantics.registrations test_registrations
           value_test_declared) = Some wv'
    ∧ ValueSemantics.calls wv' = newv
    ∧ ValueSemantics.times_called 1 newv = 0%nat
    ∧ ValueSemantics.times_called 2 newv = 1%nat
    ∧ ValueSemantics.times_called 3 newv = 1%nat
    ∧ ValueSemantics.times_called 4 newv = 0%nat
    ∧ ValueSemantics.call_observer <$> newv = [2; 3]%N
    ∧ ValueSemantics.observe test_watched wv'
      = (0, 5, [Some 0; Some 5; Some 5]).
Proof.
  destruct (C3_broadcast_reaches_net_attached test_registrations
              ReferenceSemantics.ValueB 5
              reference_test_declared value_test_declared)
    as [(wr' & newr & visr & Hrun_r & Hcalls_r & Hcount_r & Hs_r & _ & _
         & _ & Hobj_r)
        (wv' & newv & visv & Hrun_v & Hcalls_v & Hcount_v & Hs_v & _ & _
         & _ & _ & _)].
  - intros p. simpl.
    repeat case_decide; subst; try discriminate;
      intros _; eexists; vm_compute; reflexivity.
  - intros p. simpl.
    repeat case_decide; subst; try discriminate;
      intros _; eexists; vm_compute; reflexivity.
  - exists wr', wv', newr, newv.
    assert (Hcached : ∀ p,
              ReferenceSemantics.cached p wr'
              = ReferenceSemantics.GetValue
                  <$> (if net_attached false test_registrations p
                       then (λ o, ReferenceSemantics.OnNotification o
                                    (ReferenceSemantics.assign
                                       ReferenceSemantics.ValueB 5
                                       (ReferenceSemantics.subject
                                          (ReferenceSemantics.registrations
                                             test_registrations
                                             reference_test_declared)))
                                    ReferenceSemantics.ValueB)
                              <$> ReferenceSemantics.objects
                                    reference_test_declared !! p
                       else ReferenceSemantics.objects
                              reference_test_declared !! p)).
    { intros p. unfold ReferenceSemantics.cached.
      by rewrite (Hobj_r p), Hs_r. }
    pose proof Hrun_v as Hrun_v'.
    vm_compute in Hrun_v'. injection Hrun_v' as Hwv.
    split; [done|]. split; [done|].
    split; [apply Hcount_r|]. split; [apply Hcount_r|].
    split; [apply Hcount_r|]. split; [apply Hcount_r|].
    split; [by rewrite Hcached|]. split; [by rewrite Hcached|].
    split; [by rewrite Hcached|].
    split; [done|]. split; [done|].
    split; [apply Hcount_v|]. split; [apply Hcount_v|].
    split; [apply Hcount_v|]. split; [apply Hcount_v|].
    assert (Hnewv : newv = ValueSemantics.calls wv') by (by rewrite Hcalls_v).
    rewrite Hnewv, <- Hwv. split; reflexivity.
Defined.

(** C6: a setter first stores the value in its field and then broadcasts the
    field's tag exactly once.  Every call of the broadcast carries that tag
    and shows the subject with the new value already stored, every registered
    handle is called once and no other handle is called, and the observers
    that act on the tag end with the new value cached. *)
Theorem C6_setter_stores_then_broadcasts_once
    (tag : ReferenceSemantics.SubjectSystemTag) (value : Z)
    (wr : ReferenceSemantics.World) (wv : ValueSemantics.World) :
  ReferenceSemantics.registered_live wr →
  ValueSemantics.registered_live wv →
  (∃ wr' new,
      ReferenceSemantics.SetValue tag value wr = Some wr'
      ∧ ReferenceSemantics.subject wr'
        = ReferenceSemantics.assign tag value (ReferenceSemantics.subject wr)
      ∧ ReferenceSemantics.GetValueOf tag (ReferenceSemantics.subject wr')
        = value
      ∧ ReferenceSemantics.calls wr' = ReferenceSemantics.calls wr ++ new
      ∧ Forall (λ c, ReferenceSemantics.call_tag c = tag
                     ∧ ReferenceSemantics.GetValueOf tag
                         (ReferenceSemantics.call_subject c) = value) new
      ∧ (∀ p, ReferenceSemantics.times_called p new
              = if decide (p ∈ ReferenceSemantics.m_Observers
                                 (ReferenceSemantics.subject wr))
                then 1%nat else 0%nat)
      ∧ (∀ p o,
           p ∈ ReferenceSemantics.m_Observers (ReferenceSemantics.subject wr) →
           ReferenceSemantics.objects wr !! p = Some o →
           ReferenceSemantics.acts_on o tag = true →
           ReferenceSemantics.cached p wr' = Some value))
  ∧ (∃ wv' new,
      ValueSemantics.SetValue (tag_value tag) value wv = Some wv'
      ∧ ValueSemantics.subject wv'
        = ValueSemantics.assign (tag_value tag) value
            (ValueSemantics.subject wv)
      ∧ ValueSemantics.GetValueOf (tag_value tag) (ValueSemantics.subject wv')
        = value
      ∧ ValueSemantics.calls wv' = ValueSemantics.calls wv ++ new
      ∧ Forall (λ c, ValueSemantics.call_tag c = tag_value tag
                     ∧ ValueSemantics.GetValueOf (tag_value tag)
                         (ValueSemantics.call_subject c) = value) new
      ∧ (∀ p, ValueSemantics.times_called p new
              = if decide (p ∈ ValueSemantics.m_Observers
                                 (ValueSemantics.subject wv))
                then 1%nat else 0%nat)
      ∧ (∀ p o x,
           ValueSemantics.registered_from_header wv →
           p ∈ ValueSemantics.m_Observers (ValueSemantics.subject wv) →
           ValueSemantics.observers wv !! p = Some o →
           ValueSemantics.caches o (tag_value tag) x →
           ValueSemantics.memory wv' !! x = Some value)).
Proof.
  intros Hr Hv. split.
  - destruct (ref_SetValue_spec tag value wr Hr)
      as (wr' & Hrun & Hs & Hc & Ho).
    eexists wr', _. split; [done|]. split; [done|].
    split; [rewrite Hs; by destruct tag|]. split; [exact Hc|].
    split; [|split].
    + apply Forall_fmap, Forall_forall. intros p _. simpl.
      split; [done|by destruct tag].
    + intros p. rewrite ref_times_called_new. by destruct tag.
    + intros p o Hp Hobj Hact. unfold ReferenceSemantics.cached.
      rewrite Ho, decide_True, Hobj by done. simpl. f_equal.
      destruct o, tag; try discriminate; reflexivity.
  - destruct (val_SetValue_spec (tag_value tag) value wv Hv)
      as (wv' & Hrun & Hs & Hobs & Hc & Hm).
    eexists wv', _. split; [done|]. split; [done|].
    split; [rewrite Hs; by destruct tag|]. split; [exact Hc|].
    split; [|split].
    + apply Forall_fmap, Forall_forall. intros p _. simpl.
      split; [done|by destruct tag].
    + intros p. rewrite val_times_called_new. by destruct tag.
    + intros p o x Hhdr Hp Hobj Hcaches. rewrite Hm.
      rewrite (val_foldl_written (ValueSemantics.observers wv)
                 (ValueSemantics.assign (tag_value tag) value
                    (ValueSemantics.subject wv)) (tag_value tag) x).
      * by destruct tag.
      * intros q Hq. apply Hhdr. by apply elem_of_iteration_order.
      * right. exists p, o. split; [|done].
        by apply elem_of_iteration_order.
Qed.

Lemma C6_setter_stores_then_broadcasts_once_witness :
  ReferenceSemantics.registered_live reference_test_attached
  ∧ ValueSemantics.registered_live value_test_attached
  ∧ ∃ wr' wv',
      ReferenceSemantics.SetValue ReferenceSemantics.ValueB 2
        reference_test_attached = Some wr'
      ∧ ReferenceSemantics.GetValueB (ReferenceSemantics.subject wr') = 2
      ∧ ValueSemantics.SetValue ValueSemantics.ValueB 2
          value_test_attached = Some wv'
      ∧ ValueSemantics.GetValueB (ValueSemantics.subject wv') = 2.
Proof.
  split; [exact reference_test_attached_live|].
  split; [exact value_test_attached_live|].
  destruct (C6_setter_stores_then_broadcasts_once ReferenceSemantics.ValueB 2
              reference_test_attached value_test_attached
              reference_test_attached_live value_test_attached_live)
    as [(wr' & newr & Hrun_r & _ & Hget_r & _)
        (wv' & newv & Hrun_v & _ & Hget_v & _)].
  exists wr', wv'. repeat split; assumption.
Defined.

(** C7: a broadcast changes only the cached state of the observers that act
    on its tag.  After [SetValueA] every observer filtering on [ValueB] has the
    cached state it had before, and after [SetValueB] every observer
    filtering on [ValueA] has: in the reference variant the objects of the
    other class, in the value variant the variables that the callables of the
    other tag cache in. *)
Theorem C7_broadcast_respects_tag_filter
    (tag : ReferenceSemantics.SubjectSystemTag) (value : Z)
    (wr : ReferenceSemantics.World) (wv : ValueSemantics.World) :
  ReferenceSemantics.registered_live wr →
  ValueSemantics.registered_from_header wv →
  (∃ wr',
      ReferenceSemantics.SetValue tag value wr = Some wr'
      ∧ ∀ p o,
          ReferenceSemantics.objects wr !! p = Some o →
          ReferenceSemantics.acts_on o tag = false →
          ReferenceSemantics.objects wr' !! p = Some o
          ∧ ReferenceSemantics.cached p wr' = ReferenceSemantics.cached p wr)
  ∧ (∃ wv',
      ValueSemantics.SetValue (tag_value tag) value wv = Some wv'
      ∧ ∀ o t x,
          ValueSemantics.caches o t x →
          t ≠ tag_value tag →
          ValueSemantics.memory wv' !! x = ValueSemantics.memory wv !! x).
Proof.
  intros Hr Hv. split.
  - destruct (ref_SetValue_spec tag value wr Hr) as (wr' & Hrun & _ & _ & Ho).
    exists wr'. split; [done|]. intros p o Hobj Hact.
    assert (Hsame : ReferenceSemantics.objects wr' !! p = Some o).
    { rewrite Ho, Hobj. case_decide; [|done]. simpl. f_equal.
      destruct o, tag; try discriminate; reflexivity. }
    split; [done|]. unfold ReferenceSemantics.cached. by rewrite Hsame, Hobj.
  - destruct (val_SetValue_spec (tag_value tag) value wv
                (val_registered_from_header_live wv Hv))
      as (wv' & Hrun & _ & _ & _ & Hm).
    exists wv'. split; [done|]. intros o t x Hcaches Hne.
    rewrite Hm. apply val_foldl_frame.
    intros q oq Hq Hoq m.
    destruct (Hv q) as (oq' & tq & y & Hoq' & Hcq);
      [by apply elem_of_iteration_order|].
    assert (oq' = oq) as -> by congruence.
    rewrite (val_caches_spec _ _ _ Hcq).
    case_decide as Htag; [|done].
    rewrite lookup_insert_ne; [done|]. intros ->.
    apply Hne. rewrite Htag. exact (val_caches_tag _ _ _ _ _ Hcaches Hcq).
Qed.

Lemma C7_broadcast_respects_tag_filter_witness :
  ReferenceSemantics.registered_live reference_test_attached
  ∧ ValueSemantics.registered_from_header value_test_attached
  ∧ ∃ wr' wv',
      ReferenceSemantics.SetValue ReferenceSemantics.ValueA 1
        reference_test_attached = Some wr'
      ∧ ReferenceSemantics.cached 2 wr' = Some 0
      ∧ ReferenceSemantics.cached 3 wr' = Some 0
      ∧ ValueSemantics.SetValue ValueSemantics.ValueA 1
          value_test_attached = Some wv'
      ∧ ValueSemantics.memory wv' !! ValueSemantics.automatic 0 = Some 0
      ∧ ValueSemantics.memory wv' !! ValueSemantics.freeFuncValueB = Some 0.
Proof.
  split; [exact reference_test_attached_live|].
  split; [exact value_test_attached_from_header|].
  destruct (C7_broadcast_respects_tag_filter ReferenceSemantics.ValueA 1
              reference_test_attached value_test_attached
              reference_test_attached_live value_test_attached_from_header)
    as [(wr' & Hrun_r & Hframe_r) (wv' & Hrun_v & Hframe_v)].
  exists wr', wv'. split; [exact Hrun_r|].
  split.
  { apply (Hframe_r 2%N (ReferenceSemantics.ObjectB
                           ReferenceSemantics.SubjectObserverB.new));
      reflexivity. }
  split.
  { apply (Hframe_r 3%N (ReferenceSemantics.ObjectB
                           ReferenceSemantics.SubjectObserverB.new));
      reflexivity. }
  split; [exact Hrun_v|].
  split.
  - rewrite (Hframe_v _ _ _ (ValueSemantics.caches_lambdaB 0))
      by discriminate.
    reflexivity.
  - rewrite (Hframe_v _ _ _ ValueSemantics.caches_OnNotification)
      by discriminate.
    reflexivity.
Defined.

(** An observer that is attached again is notified again. *)
Example reattached_observer_is_updated :
  ReferenceSemantics.observations [3%N] [Attach 3; SetB 5]
    reference_test_detached
  = [Some (0, 0, [Some 0]); Some (0, 5, [Some 5])].
Proof. vm_compute. reflexivity. Qed.

(** C8, as stated, fails in the value variant.  Two wrappers of the free
    function [OnNotification] cache in the same variable [freeFuncValueB].
    With both attached, [SetValueB(2)] caches 2; after the wrapper at
    address 1 is detached, [SetValueB(3)] still reaches the wrapper at
    address 2, and the cached value of the detached observer becomes 3. *)
Lemma C8_counterexample_shared_variable :
  (∃ w1 w2,
      ValueSemantics.run [SetB 2; Detach 1%N] two_wrappers_attached = Some w1
      ∧ (1%N ∉ ValueSemantics.m_Observers (ValueSemantics.subject w1))
      ∧ ValueSemantics.observers w1 !! 1%N
        = Some (ValueSemantics.Observer.mk ValueSemantics.OnNotification)
      ∧ ValueSemantics.caches
          (ValueSemantics.Observer.mk ValueSemantics.OnNotification)
          ValueSemantics.ValueB ValueSemantics.freeFuncValueB
      ∧ ValueSemantics.memory w1 !! ValueSemantics.freeFuncValueB = Some 2
      ∧ ValueSemantics.SetValueB 3 w1 = Some w2
      ∧ ValueSemantics.memory w2 !! ValueSemantics.freeFuncValueB = Some 3)
  ∧ ¬ (∀ (w w' : ValueSemantics.World) (p : ptr) o t x tag value,
         p ∉ ValueSemantics.m_Observers (ValueSemantics.subject w) →
         ValueSemantics.observers w !! p = Some o →
         ValueSemantics.caches o t x →
         ValueSemantics.SetValue tag value w = Some w' →
         ValueSemantics.memory w' !! x = ValueSemantics.memory w !! x).
Proof.
  assert (Hex : ∃ w1 w2,
      ValueSemantics.run [SetB 2; Detach 1%N] two_wrappers_attached = Some w1
      ∧ (1%N ∉ ValueSemantics.m_Observers (ValueSemantics.subject w1))
      ∧ ValueSemantics.observers w1 !! 1%N
        = Some (ValueSemantics.Observer.mk ValueSemantics.OnNotification)
      ∧ ValueSemantics.caches
          (ValueSemantics.Observer.mk ValueSemantics.OnNotification)
          ValueSemantics.ValueB ValueSemantics.freeFuncValueB
      ∧ ValueSemantics.memory w1 !! ValueSemantics.freeFuncValueB = Some 2
      ∧ ValueSemantics.SetValueB 3 w1 = Some w2
      ∧ ValueSemantics.memory w2 !! ValueSemantics.freeFuncValueB = Some 3).
  { eexists _, _. split; [vm_compute; reflexivity|].
    split; [apply (bool_decide_unpack _); vm_compute; exact I|].
    split; [reflexivity|]. split; [constructor|].
    split; [reflexivity|]. split; [vm_compute; reflexivity|]. reflexivity. }
  split; [exact Hex|].
  destruct Hex as (w1 & w2 & _ & Hdet & Hobs & Hcaches & Hm1 & Hrun & Hm2).
  intros Hclaim.
  specialize (Hclaim w1 w2 1%N _ _ _ ValueSemantics.ValueB 3
                Hdet Hobs Hcaches Hrun).
  rewrite Hm1, Hm2 in Hclaim. discriminate.
Qed.

(** C8, amended: an observer that is not registered, and that the later
    calls do not attach again, keeps its cached value through every later
    setter call, attach and detach.  In the reference variant this needs no
    more than live handles.  In the value variant it holds for the variable
    [x] the observer caches in when no callable that is registered, or gets
    attached later, writes [x]. *)
Theorem C8_detached_cache_is_kept
    (ops : list Op) (p : ptr) (x : ValueSemantics.variable)
    (wr : ReferenceSemantics.World) (wv : ValueSemantics.World) :
  p ∉ ReferenceSemantics.m_Observers (ReferenceSemantics.subject wr) →
  Attach p ∉ ops →
  (∀ q, q ∈ ReferenceSemantics.m_Observers (ReferenceSemantics.subject wr)
        ∨ Attach q ∈ ops →
        is_Some (ReferenceSemantics.objects wr !! q)) →
  (∀ q, q ∈ ValueSemantics.m_Observers (ValueSemantics.subject wv)
        ∨ Attach q ∈ ops →
        ∃ o, ValueSemantics.observers wv !! q = Some o
             ∧ ValueSemantics.preserves x o) →
  (∃ wr',
      ReferenceSemantics.run ops wr = Some wr'
      ∧ ReferenceSemantics.objects wr' !! p = ReferenceSemantics.objects wr !! p
      ∧ ReferenceSemantics.cached p wr' = ReferenceSemantics.cached p wr)
  ∧ (∃ wv',
      ValueSemantics.run ops wv = Some wv'
      ∧ ValueSemantics.memory wv' !! x = ValueSemantics.memory wv !! x).
Proof.
  intros Hp Hna Hr Hv. split.
  - destruct (ref_run_frame ops p wr Hp Hna Hr) as (wr' & Hrun & Hobj).
    exists wr'. split; [done|]. split; [done|].
    unfold ReferenceSemantics.cached. by rewrite Hobj.
  - exact (val_run_frame ops x wv Hv).
Qed.

Lemma C8_detached_cache_is_kept_witness :
  ∃ wr' wv',
    ReferenceSemantics.run later_program reference_test_detached = Some wr'
    ∧ ReferenceSemantics.cached 3 wr' = Some 0
    ∧ ValueSemantics.run later_program value_test_detached = Some wv'
    ∧ ValueSemantics.memory wv' !! ValueSemantics.freeFuncValueB = Some 0.
Proof.
  destruct (C8_detached_cache_is_kept later_program 3
              ValueSemantics.freeFuncValueB
              reference_test_detached value_test_detached)
    as [(wr' & Hrun_r & _ & Hcached) (wv' & Hrun_v & Hm)].
  - apply (bool_decide_unpack _). vm_compute. exact I.
  - unfold later_program. set_solver.
  - intros q Hq.
    assert (q = 1%N ∨ q = 2%N) as [->| ->]
      by (revert Hq; unfold later_program; simpl; set_solver).
    + eexists. reflexivity.
    + eexists. reflexivity.
  - intros q Hq.
    assert (q = 1%N ∨ q = 2%N) as [->| ->]
      by (revert Hq; unfold later_program; simpl; set_solver).
    + eexists. split; [reflexivity|].
      by apply (val_caches_preserves _ _ _ _
                  (ValueSemantics.caches_SubjectObserverA 1)).
    + eexists. split; [reflexivity|].
      by apply (val_caches_preserves _ _ _ _
                  (ValueSemantics.caches_lambdaB 0)).
  - exists wr', wv'. split; [exact Hrun_r|]. split; [by rewrite Hcached|].
    split; [exact Hrun_v|]. by rewrite Hm.
Defined.

(** C2: the two variants give the same observable results.  From worlds
    whose observers correspond (same handles, same tag acted on, a cache
    variable per handle holding the value of the object's [m_Value]), every
    client program yields the same list of observations in both variants:
    [GetValueA()], [GetValueB()] and the cached value of each watched
    observer after every call, and undefined behaviour at the same call. *)
Theorem C2_variants_agree
    (var_of : ptr → ValueSemantics.variable) (handles : list ptr)
    (ops : list Op)
    (wr : ReferenceSemantics.World) (wv : ValueSemantics.World) :
  corresponding var_of wr wv →
  (∀ p, p ∈ handles → is_Some (ReferenceSemantics.objects wr !! p)) →
  ReferenceSemantics.observe handles wr
  = ValueSemantics.observe (var_of <$> handles) wv
  ∧ ReferenceSemantics.observations handles ops wr
    = ValueSemantics.observations (var_of <$> handles) ops wv.
Proof.
  intros Hcorr Hlive. split.
  - by apply corr_observe.
  - by apply corr_observations.
Qed.

Lemma C2_variants_agree_witness :
  corresponding test_var_of reference_test_attached value_test_attached
  ∧ ReferenceSemantics.observations [1; 2; 3]%N longer_program
      reference_test_attached
    = ValueSemantics.observations test_watched longer_program
        value_test_attached.
Proof.
  split; [exact test_worlds_corresponding|].
  apply (C2_variants_agree test_var_of [1; 2; 3]%N longer_program
           reference_test_attached value_test_attached
           test_worlds_corresponding).
  intros p Hp.
  assert (p = 1%N ∨ p = 2%N ∨ p = 3%N) as [->|[->| ->]]
    by (revert Hp; set_solver);
    eexists; reflexivity.
Defined.

(** * Further properties of the code *)

(** ** Registration *)

Lemma gset_insert_erase (p : ptr) (X : gset ptr) :
  p ∉ X → ({[p]} ∪ X) ∖ {[p]} = X.
Proof. set_solver. Qed.

(** X1: attaching a handle that is not registered and detaching it again
    gives back the world as it was, in both variants. *)
Theorem X1_attach_detach_round_trip (p : ptr)
    (wr : ReferenceSemantics.World) (wv : ValueSemantics.World) :
  p ∉ ReferenceSemantics.m_Observers (ReferenceSemantics.subject wr) →
  p ∉ ValueSemantics.m_Observers (ValueSemantics.subject wv) →
  ReferenceSemantics.DetachObserver p (ReferenceSemantics.AttachObserver p wr)
  = wr
  ∧ ValueSemantics.DetachObserver p (ValueSemantics.AttachObserver p wv)
    = wv.
Proof.
  intros Hr Hv. split.
  - destruct wr as [[X va vb] objs cs]. simpl in *.
    unfold ReferenceSemantics.DetachObserver, ReferenceSemantics.AttachObserver,
      ReferenceSemantics.set_subject. simpl.
    by rewrite gset_insert_erase.
  - destruct wv as [[X va vb] obs mem cs]. simpl in *.
    unfold ValueSemantics.DetachObserver, ValueSemantics.AttachObserver,
      ValueSemantics.set_subject. simpl.
    by rewrite gset_insert_erase.
Qed.

Lemma X1_attach_detach_round_trip_witness :
  (1%N ∉ ReferenceSemantics.m_Observers
           (ReferenceSemantics.subject reference_test_declared))
  ∧ (1%N ∉ ValueSemantics.m_Observers
             (ValueSemantics.subject value_test_declared))
  ∧ ReferenceSemantics.DetachObserver 1
      (ReferenceSemantics.AttachObserver 1 reference_test_declared)
    = reference_test_declared
  ∧ ValueSemantics.DetachObserver 1
      (ValueSemantics.AttachObserver 1 value_test_declared)
    = value_test_declared.
Proof.
  assert (Hr : 1%N ∉ ReferenceSemantics.m_Observers
                       (ReferenceSemantics.subject reference_test_declared))
    by (apply (bool_decide_unpack _); vm_compute; exact I).
  assert (Hv : 1%N ∉ ValueSemantics.m_Observers
                       (ValueSemantics.subject value_test_declared))
    by (apply (bool_decide_unpack _); vm_compute; exact I).
  split; [exact Hr|]. split; [exact Hv|].
  exact (X1_attach_detach_round_trip 1 reference_test_declared
           value_test_declared Hr Hv).
Defined.

Lemma ref_world_eq (w w' : ReferenceSemantics.World) :
  ReferenceSemantics.m_Observers (ReferenceSemantics.subject w)
  = ReferenceSemantics.m_Observers (ReferenceSemantics.subject w') →
  ReferenceSemantics.m_ValueA (ReferenceSemantics.subject w)
  = ReferenceSemantics.m_ValueA (ReferenceSemantics.subject w') →
  ReferenceSemantics.m_ValueB (ReferenceSemantics.subject w)
  = ReferenceSemantics.m_ValueB (ReferenceSemantics.subject w') →
  ReferenceSemantics.objects w = ReferenceSemantics.objects w' →
  ReferenceSemantics.calls w = ReferenceSemantics.calls w' →
  w = w'.
Proof.
  destruct w as [[X a b] o c], w' as [[X' a' b'] o' c']. simpl.
  by intros -> -> -> -> ->.
Qed.

Lemma val_world_eq (w w' : ValueSemantics.World) :
  ValueSemantics.m_Observers (ValueSemantics.subject w)
  = ValueSemantics.m_Observers (ValueSemantics.subject w') →
  ValueSemantics.m_ValueA (ValueSemantics.subject w)
  = ValueSemantics.m_ValueA (ValueSemantics.subject w') →
  ValueSemantics.m_ValueB (ValueSemantics.subject w)
  = ValueSemantics.m_ValueB (ValueSemantics.subject w') →
  ValueSemantics.observers w = ValueSemantics.observers w' →
  ValueSemantics.memory w = ValueSemantics.memory w' →
  ValueSemantics.calls w = ValueSemantics.calls w' →
  w = w'.
Proof.
  destruct w as [[X a b] o m c], w' as [[X' a' b'] o' m' c']. simpl.
  by intros -> -> -> -> -> ->.
Qed.

(** X2: only the net effect of registrations counts.  Two sequences of
    [AttachObserver] and [DetachObserver] calls that leave every handle in
    the same net state lead to the same world, whatever their order, their
    length and the repetitions in them. *)
Theorem X2_registrations_by_net_state (regs1 regs2 : list Registration)
    (wr : ReferenceSemantics.World) (wv : ValueSemantics.World) :
  (∀ p, net_attached
          (bool_decide (p ∈ ReferenceSemantics.m_Observers
                              (ReferenceSemantics.subject wr))) regs1 p
        = net_attached
            (bool_decide (p ∈ ReferenceSemantics.m_Observers
                                (ReferenceSemantics.subject wr))) regs2 p) →
  (∀ p, net_attached
          (bool_decide (p ∈ ValueSemantics.m_Observers
                              (ValueSemantics.subject wv))) regs1 p
        = net_attached
            (bool_decide (p ∈ ValueSemantics.m_Observers
                                (ValueSemantics.subject wv))) regs2 p) →
  ReferenceSemantics.registrations regs1 wr
  = ReferenceSemantics.registrations regs2 wr
  ∧ ValueSemantics.registrations regs1 wv
    = ValueSemantics.registrations regs2 wv.
Proof.
  intros Hr Hv. split.
  - destruct (ref_registrations_spec regs1 wr)
      as [(Ha1 & Hb1 & Ho1 & _ & Hl1) Hmem1].
    destruct (ref_registrations_spec regs2 wr)
      as [(Ha2 & Hb2 & Ho2 & _ & Hl2) Hmem2].
    unfold ReferenceSemantics.GetValueA, ReferenceSemantics.GetValueB in *.
    apply ref_world_eq; [|congruence..].
    apply set_eq. intros p. by rewrite Hmem1, Hmem2, Hr.
  - destruct (val_registrations_spec regs1 wv)
      as [(Ha1 & Hb1 & Ho1 & Hm1 & Hl1) Hmem1].
    destruct (val_registrations_spec regs2 wv)
      as [(Ha2 & Hb2 & Ho2 & Hm2 & Hl2) Hmem2].
    unfold ValueSemantics.GetValueA, ValueSemantics.GetValueB in *.
    apply val_world_eq; [|congruence..].
    apply set_eq. intros p. by rewrite Hmem1, Hmem2, Hv.
Qed.

Lemma X2_registrations_by_net_state_witness :
  ReferenceSemantics.registrations registrations_one reference_test_declared
  = ReferenceSemantics.registrations registrations_two reference_test_declared
  ∧ ValueSemantics.registrations registrations_one value_test_declared
    = ValueSemantics.registrations registrations_two value_test_declared.
Proof.
  apply (X2_registrations_by_net_state registrations_one registrations_two
           reference_test_declared value_test_declared).
  - intros p. simpl. repeat case_decide; subst; done.
  - intros p. simpl. repeat case_decide; subst; done.
Defined.

(** ** Broadcasts *)


Lemma iteration_order_empty : iteration_order ∅ = [].
Proof. unfold iteration_order. by rewrite elements_empty. Qed.

(** X4: with no observer registered a setter only stores the value.  The
    call succeeds, nothing is notified, and no observer object or variable
    is read or written, whatever the stores hold. *)
Theorem X4_setter_without_observers
    (tag : ReferenceSemantics.SubjectSystemTag) (value : Z)
    (wr : ReferenceSemantics.World) (wv : ValueSemantics.World) :
  ReferenceSemantics.m_Observers (ReferenceSemantics.subject wr) = ∅ →
  ValueSemantics.m_Observers (ValueSemantics.subject wv) = ∅ →
  ReferenceSemantics.SetValue tag value wr
  = Some {| ReferenceSemantics.subject :=
              ReferenceSemantics.assign tag value
                (ReferenceSemantics.subject wr);
            ReferenceSemantics.objects := ReferenceSemantics.objects wr;
            ReferenceSemantics.calls := ReferenceSemantics.calls wr |}
  ∧ ValueSemantics.SetValue (tag_value tag) value wv
    = Some {| ValueSemantics.subject :=
                ValueSemantics.assign (tag_value tag) value
                  (ValueSemantics.subject wv);
              ValueSemantics.observers := ValueSemantics.observers wv;
              ValueSemantics.memory := ValueSemantics.memory wv;
              ValueSemantics.calls := ValueSemantics.calls wv |}.
Proof.
  intros Hr Hv. split.
  - rewrite ref_SetValue_unfold. unfold ReferenceSemantics.SendNotification.
    replace (ReferenceSemantics.m_Observers _) with (∅ : gset ptr)
      by (by destruct tag).
    by rewrite iteration_order_empty.
  - rewrite val_SetValue_unfold. unfold ValueSemantics.SendNotification.
    replace (ValueSemantics.m_Observers _) with (∅ : gset ptr)
      by (by destruct tag).
    by rewrite iteration_order_empty.
Qed.

Lemma X4_setter_without_observers_witness :
  ∃ wr' wv',
    ReferenceSemantics.SetValue ReferenceSemantics.ValueA 6
      reference_test_declared = Some wr'
    ∧ ReferenceSemantics.observe [1; 2; 3]%N wr'
      = (6, 0, [Some 0; Some 0; Some 0])
    ∧ ReferenceSemantics.calls wr' = []
    ∧ ValueSemantics.SetValue ValueSemantics.ValueA 6 value_test_declared
      = Some wv'
    ∧ ValueSemantics.observe test_watched wv'
      = (6, 0, [Some 0; Some 0; Some 0])
    ∧ ValueSemantics.calls wv' = [].
Proof.
  destruct (X4_setter_without_observers ReferenceSemantics.ValueA 6
              reference_test_declared value_test_declared)
    as [Hr Hv]; [reflexivity|reflexivity|].
  eexists _, _. split; [exact Hr|]. split; [reflexivity|].
  split; [reflexivity|]. split; [exact Hv|]. split; reflexivity.
Defined.

Lemma StronglySorted_le_NoDup_lt (l : list ptr) :
  StronglySorted N.le l → NoDup l → StronglySorted N.lt l.
Proof.
  induction 1 as [|x l Hl IH Hx]; intros Hnd; [constructor|].
  apply NoDup_cons in Hnd as [Hnotin Hnd].
  constructor; [by apply IH|].
  apply Forall_forall. intros y Hy.
  rewrite Forall_forall in Hx.
  assert (x ≠ y) by (intros ->; done).
  specialize (Hx y Hy). lia.
Qed.

Lemma iteration_order_length (s : gset ptr) :
  length (iteration_order s) = size s.
Proof. by rewrite iteration_order_Permutation. Qed.

(** X5: a broadcast visits the registered observers in strictly ascending
    order of their addresses, the order in which a [std::set] of pointers is
    traversed.  The handles visited are exactly the registered ones, as many
    as the set has elements; the call log grows by one call per handle
    visited, in that order; in the reference variant the object at each
    visited handle is the result of its [OnNotification] and the others are
    as before, and in the value variant the memory is what running the
    callables of the visited handles in that order leaves. *)
Theorem X5_broadcast_in_address_order
    (tag : ReferenceSemantics.SubjectSystemTag) (value : Z)
    (wr : ReferenceSemantics.World) (wv : ValueSemantics.World) :
  ReferenceSemantics.registered_live wr →
  ValueSemantics.registered_live wv →
  (∃ wr' visited,
      ReferenceSemantics.SetValue tag value wr = Some wr'
      ∧ StronglySorted N.lt visited
      ∧ (∀ p, p ∈ visited
              ↔ p ∈ ReferenceSemantics.m_Observers
                      (ReferenceSemantics.subject wr))
      ∧ length visited
        = size (ReferenceSemantics.m_Observers
                  (ReferenceSemantics.subject wr))
      ∧ ReferenceSemantics.calls wr'
        = ReferenceSemantics.calls wr
          ++ ((λ p, ReferenceSemantics.mkCall p
                      (ReferenceSemantics.assign tag value
                         (ReferenceSemantics.subject wr)) tag)
              <$> visited)
      ∧ (∀ p, ReferenceSemantics.objects wr' !! p
              = if decide (p ∈ visited)
                then (λ o, ReferenceSemantics.OnNotification o
                             (ReferenceSemantics.assign tag value
                                (ReferenceSemantics.subject wr)) tag)
                       <$> ReferenceSemantics.objects wr !! p
                else ReferenceSemantics.objects wr !! p))
  ∧ (∃ wv' visited,
      ValueSemantics.SetValue (tag_value tag) value wv = Some wv'
      ∧ StronglySorted N.lt visited
      ∧ (∀ p, p ∈ visited
              ↔ p ∈ ValueSemantics.m_Observers (ValueSemantics.subject wv))
      ∧ length visited
        = size (ValueSemantics.m_Observers (ValueSemantics.subject wv))
      ∧ ValueSemantics.calls wv'
        = ValueSemantics.calls wv
          ++ ((λ p, ValueSemantics.mkCall p
                      (ValueSemantics.assign (tag_value tag) value
                         (ValueSemantics.subject wv)) (tag_value tag))
              <$> visited)
      ∧ ValueSemantics.memory wv'
        = foldl (λ m p, from_option
                          (λ o, ValueSemantics.Observer.OnNotification o
                                  (ValueSemantics.assign (tag_value tag) value
                                     (ValueSemantics.subject wv))
                                  (tag_value tag) m)
                          m (ValueSemantics.observers wv !! p))
            (ValueSemantics.memory wv) visited).
Proof.
  intros Hr Hv. split.
  - destruct (ref_SetValue_spec tag value wr Hr)
      as (wr' & Hrun & _ & Hc & Ho).
    exists wr', (iteration_order
                   (ReferenceSemantics.m_Observers
                      (ReferenceSemantics.subject wr))).
    split; [done|]. split.
    { apply StronglySorted_le_NoDup_lt;
        [apply iteration_order_ascending|apply NoDup_iteration_order]. }
    split; [apply elem_of_iteration_order|].
    split; [apply iteration_order_length|]. split; [exact Hc|].
    intros p. rewrite Ho. apply decide_ext. symmetry.
    apply elem_of_iteration_order.
  - destruct (val_SetValue_spec (tag_value tag) value wv Hv)
      as (wv' & Hrun & _ & _ & Hc & Hm).
    exists wv', (iteration_order
                   (ValueSemantics.m_Observers (ValueSemantics.subject wv))).
    split; [done|]. split.
    { apply StronglySorted_le_NoDup_lt;
        [apply iteration_order_ascending|apply NoDup_iteration_order]. }
    split; [apply elem_of_iteration_order|].
    split; [apply iteration_order_length|]. by split.
Qed.

Lemma X5_broadcast_in_address_order_witness :
  ∃ wr' wv',
    ReferenceSemantics.SetValue ReferenceSemantics.ValueA 4
      (ReferenceSemantics.benchmark_setup benchmark_addresses) = Some wr'
    ∧ ReferenceSemantics.call_observer <$> ReferenceSemantics.calls wr'
      = [2; 5; 7; 9]%N
    ∧ ReferenceSemantics.cached 7 wr' = Some 4
    ∧ ValueSemantics.SetValue ValueSemantics.ValueA 4
        (ValueSemantics.benchmark_Object_setup benchmark_addresses) = Some wv'
    ∧ ValueSemantics.call_observer <$> ValueSemantics.calls wv'
      = [2; 5; 7; 9]%N
    ∧ ValueSemantics.memory wv' !! ValueSemantics.m_Value_of 7 = Some 4.
Proof.
  assert (Hr : ReferenceSemantics.registered_live
                 (ReferenceSemantics.benchmark_setup benchmark_addresses))
    by (apply (bool_decide_unpack _); vm_compute; exact I).
  assert (Hv : ValueSemantics.registered_live
                 (ValueSemantics.benchmark_Object_setup benchmark_addresses))
    by (apply (bool_decide_unpack _); vm_compute; exact I).
  destruct (X5_broadcast_in_address_order ReferenceSemantics.ValueA 4
              _ _ Hr Hv)
    as [(wr' & visr & Hrun_r & _) (wv' & visv & Hrun_v & _)].
  exists wr', wv'. split; [exact Hrun_r|].
  pose proof Hrun_r as Hwr. vm_compute in Hwr. injection Hwr as <-.
  split; [reflexivity|]. split; [reflexivity|].
  split; [exact Hrun_v|].
  pose proof Hrun_v as Hwv. vm_compute in Hwv. injection Hwv as <-.
  split; reflexivity.
Defined.

(** ** Setters one after another *)

Section reference_setters.
Import ReferenceSemantics.

(** A setter call with its result and the fact that the next call is
    defined as well. *)
Lemma ref_SetValue_next tag value (w : World) :
  registered_live w →
  ∃ w', SetValue tag value w = Some w'
    ∧ subject w' = assign tag value (subject w)
    ∧ m_Observers (subject w') = m_Observers (subject w)
    ∧ calls w' = calls w ++ ((λ p, mkCall p (assign tag value (subject w)) tag)
                              <$> iteration_order (m_Observers (subject w)))
    ∧ (∀ q, objects w' !! q
            = if decide (q ∈ m_Observers (subject w))
              then (λ o, OnNotification o (assign tag value (subject w)) tag)
                     <$> objects w !! q
              else objects w !! q)
    ∧ registered_live w'.
Proof.
  intros Hlive.
  destruct (ref_SetValue_spec tag value w Hlive) as (w' & Hrun & Hs & Hc & Ho).
  assert (HX : m_Observers (subject w') = m_Observers (subject w))
    by (rewrite Hs; by destruct tag).
  exists w'. repeat split; try done.
  intros q Hq. rewrite HX in Hq. apply elem_of_dom.
  rewrite Ho, decide_True by done.
  apply fmap_is_Some, elem_of_dom. by apply Hlive.
Qed.

Lemma ref_assign_assign tag v1 v2 s :
  assign tag v2 (assign tag v1 s) = assign tag v2 s.
Proof. by destruct tag. Qed.

Lemma ref_assign_comm v1 v2 s :
  assign ValueB v2 (assign ValueA v1 s) = assign ValueA v1 (assign ValueB v2 s).
Proof. done. Qed.

Lemma ref_last_write_wins tag v1 v2 (w : World) :
  registered_live w →
  ∃ w1 w12 w2,
    SetValue tag v1 w = Some w1
    ∧ SetValue tag v2 w1 = Some w12
    ∧ SetValue tag v2 w = Some w2
    ∧ subject w12 = subject w2
    ∧ objects w12 = objects w2.
Proof.
  intros Hlive.
  destruct (ref_SetValue_next tag v1 w Hlive)
    as (w1 & Hrun1 & Hs1 & HX1 & _ & Ho1 & Hlive1).
  destruct (ref_SetValue_next tag v2 w1 Hlive1)
    as (w12 & Hrun12 & Hs12 & _ & _ & Ho12 & _).
  destruct (ref_SetValue_next tag v2 w Hlive)
    as (w2 & Hrun2 & Hs2 & _ & _ & Ho2 & _).
  exists w1, w12, w2. repeat split; try done.
  - by rewrite Hs12, Hs1, Hs2, ref_assign_assign.
  - apply map_eq. intros q. rewrite Ho12, Ho2, Ho1, HX1, Hs1.
    case_decide; [|done].
    destruct (objects w !! q) as [o|]; [|done]. simpl. f_equal.
    rewrite !ref_OnNotification_eq. by destruct o, tag.
Qed.

Lemma ref_setters_commute va vb (w : World) :
  registered_live w →
  ∃ wa wab wb wba,
    SetValueA va w = Some wa
    ∧ SetValueB vb wa = Some wab
    ∧ SetValueB vb w = Some wb
    ∧ SetValueA va wb = Some wba
    ∧ subject wab = subject wba
    ∧ objects wab = objects wba.
Proof.
  intros Hlive.
  destruct (ref_SetValue_next ValueA va w Hlive)
    as (wa & Hruna & Hsa & HXa & _ & Hoa & Hlivea).
  destruct (ref_SetValue_next ValueB vb wa Hlivea)
    as (wab & Hrunab & Hsab & _ & _ & Hoab & _).
  destruct (ref_SetValue_next ValueB vb w Hlive)
    as (wb & Hrunb & Hsb & HXb & _ & Hob & Hliveb).
  destruct (ref_SetValue_next ValueA va wb Hliveb)
    as (wba & Hrunba & Hsba & _ & _ & Hoba & _).
  exists wa, wab, wb, wba. repeat split; try done.
  - by rewrite Hsab, Hsa, Hsba, Hsb.
  - apply map_eq. intros q.
    rewrite Hoab, Hoba, Hoa, Hob, HXa, HXb, Hsa, Hsb.
    case_decide; [|done].
    destruct (objects w !! q) as [o|]; [|done]. simpl. f_equal.
    rewrite !ref_OnNotification_eq. by destruct o.
Qed.

Lemma ref_SetValue_in_sync tag value (w : World) :
  registered_live w → in_sync w →
  ∃ w', SetValue tag value w = Some w'
    ∧ m_Observers (subject w') = m_Observers (subject w)
    ∧ registered_live w' ∧ in_sync w'.
Proof.
  intros Hlive Hsync.
  destruct (ref_SetValue_next tag value w Hlive)
    as (w' & Hrun & Hs & HX & _ & Ho & Hlive').
  exists w'. repeat split; try done.
  intros p o' Hp Ho'. rewrite HX in Hp.
  rewrite Ho, decide_True in Ho' by done.
  destruct (objects w !! p) as [o|] eqn:Hobj; [|done].
  simpl in Ho'. injection Ho' as <-.
  specialize (Hsync p o Hp Hobj). rewrite Hs.
  rewrite ref_OnNotification_eq.
  destruct o, tag; simpl in *; done.
Qed.

Lemma ref_run_in_sync (ops : list Op) (w : World) :
  (∀ p, Attach p ∉ ops) →
  registered_live w → in_sync w →
  ∃ w', run ops w = Some w' ∧ registered_live w' ∧ in_sync w'.
Proof.
  revert w. induction ops as [|op ops IH]; intros w Hna Hlive Hsync.
  - by exists w.
  - assert (Hna' : ∀ p, Attach p ∉ ops)
      by (intros p Hp; apply (Hna p); by right).
    simpl. destruct op as [q|q|value|value]; simpl.
    + exfalso. apply (Hna q). by left.
    + apply IH; [done| |].
      * intros p Hp. simpl in Hp. apply Hlive. set_solver.
      * intros p o Hp Ho. simpl in Hp. apply (Hsync p o); [set_solver|done].
    + destruct (ref_SetValue_in_sync ValueA value w Hlive Hsync)
        as (w1 & Hrun & _ & Hlive1 & Hsync1).
      simpl in Hrun. rewrite Hrun. by apply IH.
    + destruct (ref_SetValue_in_sync ValueB value w Hlive Hsync)
        as (w1 & Hrun & _ & Hlive1 & Hsync1).
      simpl in Hrun. rewrite Hrun. by apply IH.
Qed.

(** Storing the value a field has already: the observers are notified all
    the same, and end as they were. *)
Lemma ref_SetValue_same tag (w : World) :
  registered_live w → in_sync w →
  ∃ w', SetValue tag (GetValueOf tag (subject w)) w = Some w'
    ∧ subject w' = subject w
    ∧ objects w' = objects w
    ∧ length (calls w')
      = (length (calls w) + size (m_Observers (subject w)))%nat.
Proof.
  intros Hlive Hsync.
  destruct (ref_SetValue_next tag (GetValueOf tag (subject w)) w Hlive)
    as (w' & Hrun & Hs & _ & Hc & Ho & _).
  assert (Hsame : assign tag (GetValueOf tag (subject w)) (subject w)
                  = subject w)
    by (destruct (subject w), tag; done).
  exists w'. split; [done|]. split; [by rewrite Hs|]. split.
  - apply map_eq. intros q. rewrite Ho, Hsame.
    case_decide as Hq; [|done].
    destruct (objects w !! q) as [o|] eqn:Hobj; [|done]. simpl. f_equal.
    specialize (Hsync q o Hq Hobj). rewrite ref_OnNotification_eq.
    destruct o as [[x]|[x]], tag; simpl in *; try done; by subst.
  - by rewrite Hc, length_app, length_fmap, iteration_order_length.
Qed.

End reference_setters.

Section value_setters.
Import ValueSemantics.

(** Over wrappers of the header's callables a broadcast either caches the
    value in [x], because a wrapper in the list acts on the tag and caches
    in [x], or leaves [x] alone; which of the two does not depend on the
    subject or on the memory. *)
Lemma val_foldl_written_or_kept (obs : gmap ptr Observer.t) tag x
    (l : list ptr) :
  (∀ q, q ∈ l → ∃ o t y, obs !! q = Some o ∧ caches o t y) →
  ((∃ p o, p ∈ l ∧ obs !! p = Some o ∧ caches o tag x)
   ∧ ∀ s m, foldl (λ m p, from_option
                            (λ o, Observer.OnNotification o s tag m)
                            m (obs !! p)) m l !! x
            = Some (GetValueOf tag s))
  ∨ (∀ s m, foldl (λ m p, from_option
                            (λ o, Observer.OnNotification o s tag m)
                            m (obs !! p)) m l !! x
            = m !! x).
Proof.
  induction l as [|q l IH]; intros Hhdr; [by right|].
  destruct IH as [[(p & o & Hp & Ho & Hc) Hall]|Hkept].
  { intros q' Hq'. apply Hhdr. by right. }
  - left. split; [exists p, o; split; [by right|done]|].
    intros s m. simpl. apply Hall.
  - destruct (Hhdr q (list_elem_of_here _ _)) as (o & t & y & Ho & Hc).
    destruct (decide (tag = t)) as [<-|Ht];
      [destruct (decide (y = x)) as [->|Hy]|].
    + left. split; [exists q, o; split; [by left|done]|].
      intros s m. simpl. rewrite Hkept, Ho. simpl.
      rewrite (val_caches_spec _ _ _ Hc), decide_True by done.
      by rewrite lookup_insert_eq.
    + right. intros s m. simpl. rewrite Hkept, Ho. simpl.
      rewrite (val_caches_spec _ _ _ Hc), decide_True by done.
      by rewrite lookup_insert_ne.
    + right. intros s m. simpl. rewrite Hkept, Ho. simpl.
      rewrite (val_caches_spec _ _ _ Hc). by rewrite decide_False.
Qed.

Lemma val_registered_header_list (w : World) :
  registered_from_header w →
  ∀ q, q ∈ iteration_order (m_Observers (subject w)) →
       ∃ o t y, observers w !! q = Some o ∧ caches o t y.
Proof. intros Hw q Hq. apply Hw. by apply elem_of_iteration_order. Qed.

Lemma val_SetValue_next tag value (w : World) :
  registered_from_header w →
  ∃ w', SetValue tag value w = Some w'
    ∧ subject w' = assign tag value (subject w)
    ∧ m_Observers (subject w') = m_Observers (subject w)
    ∧ observers w' = observers w
    ∧ calls w' = calls w ++ ((λ p, mkCall p (assign tag value (subject w)) tag)
                              <$> iteration_order (m_Observers (subject w)))
    ∧ memory w'
      = foldl (λ m p, from_option
                        (λ o, Observer.OnNotification o
                                (assign tag value (subject w)) tag m)
                        m (observers w !! p))
          (memory w) (iteration_order (m_Observers (subject w)))
    ∧ registered_from_header w'.
Proof.
  intros Hhdr.
  destruct (val_SetValue_spec tag value w
              (val_registered_from_header_live w Hhdr))
    as (w' & Hrun & Hs & Hobs & Hc & Hm).
  assert (HX : m_Observers (subject w') = m_Observers (subject w))
    by (rewrite Hs; by destruct tag).
  exists w'. repeat split; try done.
  intros q Hq. rewrite HX in Hq. rewrite Hobs. by apply Hhdr.
Qed.

Lemma val_assign_assign tag v1 v2 s :
  assign tag v2 (assign tag v1 s) = assign tag v2 s.
Proof. by destruct tag. Qed.

Lemma val_GetValueOf_assign tag value s :
  GetValueOf tag (assign tag value s) = value.
Proof. by destruct tag. Qed.

Lemma val_last_write_wins tag v1 v2 (w : World) :
  registered_from_header w →
  ∃ w1 w12 w2,
    SetValue tag v1 w = Some w1
    ∧ SetValue tag v2 w1 = Some w12
    ∧ SetValue tag v2 w = Some w2
    ∧ subject w12 = subject w2
    ∧ observers w12 = observers w2
    ∧ memory w12 = memory w2.
Proof.
  intros Hhdr.
  destruct (val_SetValue_next tag v1 w Hhdr)
    as (w1 & Hrun1 & Hs1 & HX1 & Hobs1 & _ & Hm1 & Hhdr1).
  destruct (val_SetValue_next tag v2 w1 Hhdr1)
    as (w12 & Hrun12 & Hs12 & _ & Hobs12 & _ & Hm12 & _).
  destruct (val_SetValue_next tag v2 w Hhdr)
    as (w2 & Hrun2 & Hs2 & _ & Hobs2 & _ & Hm2 & _).
  exists w1, w12, w2. repeat split; try done.
  - by rewrite Hs12, Hs1, Hs2, val_assign_assign.
  - congruence.
  - apply map_eq. intros x. rewrite Hm12, Hm2, HX1, Hobs1.
    destruct (val_foldl_written_or_kept (observers w) tag x
                (iteration_order (m_Observers (subject w)))
                (val_registered_header_list w Hhdr))
      as [[_ Hwritten]|Hkept].
    + by rewrite !Hwritten, !val_GetValueOf_assign.
    + by rewrite !Hkept, Hm1, Hkept.
Qed.

Lemma val_setters_commute va vb (w : World) :
  registered_from_header w →
  ∃ wa wab wb wba,
    SetValueA va w = Some wa
    ∧ SetValueB vb wa = Some wab
    ∧ SetValueB vb w = Some wb
    ∧ SetValueA va wb = Some wba
    ∧ subject wab = subject wba
    ∧ observers wab = observers wba
    ∧ memory wab = memory wba.
Proof.
  intros Hhdr.
  destruct (val_SetValue_next ValueA va w Hhdr)
    as (wa & Hruna & Hsa & HXa & Hobsa & _ & Hma & Hhdra).
  destruct (val_SetValue_next ValueB vb wa Hhdra)
    as (wab & Hrunab & Hsab & _ & Hobsab & _ & Hmab & _).
  destruct (val_SetValue_next ValueB vb w Hhdr)
    as (wb & Hrunb & Hsb & HXb & Hobsb & _ & Hmb & Hhdrb).
  destruct (val_SetValue_next ValueA va wb Hhdrb)
    as (wba & Hrunba & Hsba & _ & Hobsba & _ & Hmba & _).
  exists wa, wab, wb, wba. repeat split; try done.
  - by rewrite Hsab, Hsa, Hsba, Hsb.
  - congruence.
  - apply map_eq. intros x.
    rewrite Hmab, Hmba, HXa, HXb, Hobsa, Hobsb.
    pose proof (val_registered_header_list w Hhdr) as Hl.
    destruct (val_foldl_written_or_kept (observers w) ValueA x _ Hl)
      as [[(pa & oa & _ & _ & Hca) HA]|HA];
      destruct (val_foldl_written_or_kept (observers w) ValueB x _ Hl)
      as [[(pb & ob & _ & _ & Hcb) HB]|HB].
    + by pose proof (val_caches_tag _ _ _ _ _ Hca Hcb).
    + by rewrite HB, HA, Hma, HA.
    + by rewrite HB, HA, Hmb, HB.
    + by rewrite HB, HA, Hma, Hmb, HA, HB.
Qed.

Lemma val_SetValue_in_sync tag value (w : World) :
  registered_from_header w → in_sync w →
  ∃ w', SetValue tag value w = Some w'
    ∧ m_Observers (subject w') = m_Observers (subject w)
    ∧ observers w' = observers w
    ∧ registered_from_header w' ∧ in_sync w'.
Proof.
  intros Hhdr Hsync.
  destruct (val_SetValue_next tag value w Hhdr)
    as (w' & Hrun & Hs & HX & Hobs & _ & Hm & Hhdr').
  exists w'. repeat split; try done.
  intros p o t x Hp Ho Hc. rewrite HX in Hp. rewrite Hobs in Ho.
  specialize (Hsync p o t x Hp Ho Hc). rewrite Hm, Hs.
  destruct (val_foldl_written_or_kept (observers w) tag x _
              (val_registered_header_list w Hhdr))
    as [[(p' & o' & _ & _ & Hc') Hwritten]|Hkept].
  - rewrite Hwritten. f_equal.
    by rewrite (val_caches_tag _ _ _ _ _ Hc Hc').
  - rewrite Hkept, Hsync. f_equal.
    destruct (decide (t = tag)) as [->|Hne]; [|by destruct t, tag].
    exfalso.
    assert (Hin : p ∈ iteration_order (m_Observers (subject w)))
      by (by apply elem_of_iteration_order).
    pose proof (val_foldl_written (observers w) (assign tag 1 (subject w))
                  tag x _ (<[x := 0]> ∅)
                  (val_registered_header_list w Hhdr)) as Hw.
    rewrite Hkept, lookup_insert_eq, val_GetValueOf_assign in Hw.
    assert (Some 0 = Some 1) by (apply Hw; right; by exists p, o).
    discriminate.
Qed.

Lemma val_run_in_sync (ops : list Op) (w : World) :
  (∀ p, Attach p ∉ ops) →
  registered_from_header w → in_sync w →
  ∃ w', run ops w = Some w' ∧ registered_from_header w' ∧ in_sync w'.
Proof.
  revert w. induction ops as [|op ops IH]; intros w Hna Hhdr Hsync.
  - by exists w.
  - assert (Hna' : ∀ p, Attach p ∉ ops)
      by (intros p Hp; apply (Hna p); by right).
    simpl. destruct op as [q|q|value|value]; simpl.
    + exfalso. apply (Hna q). by left.
    + apply IH; [done| |].
      * intros p Hp. simpl in Hp. apply Hhdr. set_solver.
      * intros p o t x Hp Ho Hc. simpl in Hp.
        apply (Hsync p o t x); [set_solver|done..].
    + destruct (val_SetValue_in_sync ValueA value w Hhdr Hsync)
        as (w1 & Hrun & _ & _ & Hhdr1 & Hsync1).
      simpl in Hrun. rewrite Hrun. by apply IH.
    + destruct (val_SetValue_in_sync ValueB value w Hhdr Hsync)
        as (w1 & Hrun & _ & _ & Hhdr1 & Hsync1).
      simpl in Hrun. rewrite Hrun. by apply IH.
Qed.

Lemma val_SetValue_same tag (w : World) :
  registered_from_header w → in_sync w →
  ∃ w', SetValue tag (GetValueOf tag (subject w)) w = Some w'
    ∧ subject w' = subject w
    ∧ observers w' = observers w
    ∧ memory w' = memory w
    ∧ length (calls w')
      = (length (calls w) + size (m_Observers (subject w)))%nat.
Proof.
  intros Hhdr Hsync.
  destruct (val_SetValue_next tag (GetValueOf tag (subject w)) w Hhdr)
    as (w' & Hrun & Hs & _ & Hobs & Hc & Hm & _).
  assert (Hsame : assign tag (GetValueOf tag (subject w)) (subject w)
                  = subject w)
    by (destruct (subject w), tag; done).
  exists w'. split; [done|]. split; [by rewrite Hs|]. split; [done|]. split.
  - apply map_eq. intros x. rewrite Hm, Hsame.
    destruct (val_foldl_written_or_kept (observers w) tag x _
                (val_registered_header_list w Hhdr))
      as [[(p & o & Hp & Ho & Hcaches) Hwritten]|Hkept].
    + rewrite Hwritten. symmetry.
      apply (Hsync p o tag x); [|done..].
      by apply elem_of_iteration_order.
    + by rewrite Hkept.
  - by rewrite Hc, length_app, length_fmap, iteration_order_length.
Qed.

End value_setters.

(** X6: the last write wins.  Calling a setter twice leaves the subject and
    every observer, attached or not, as the second call alone would; only
    the number of notifications differs. *)
Theorem X6_last_write_wins
    (tag : ReferenceSemantics.SubjectSystemTag) (v1 v2 : Z)
    (wr : ReferenceSemantics.World) (wv : ValueSemantics.World) :
  ReferenceSemantics.registered_live wr →
  ValueSemantics.registered_from_header wv →
  (∃ w1 w12 w2,
      ReferenceSemantics.SetValue tag v1 wr = Some w1
      ∧ ReferenceSemantics.SetValue tag v2 w1 = Some w12
      ∧ ReferenceSemantics.SetValue tag v2 wr = Some w2
      ∧ ReferenceSemantics.subject w12 = ReferenceSemantics.subject w2
      ∧ ReferenceSemantics.objects w12 = ReferenceSemantics.objects w2)
  ∧ (∃ w1 w12 w2,
      ValueSemantics.SetValue (tag_value tag) v1 wv = Some w1
      ∧ ValueSemantics.SetValue (tag_value tag) v2 w1 = Some w12
      ∧ ValueSemantics.SetValue (tag_value tag) v2 wv = Some w2
      ∧ ValueSemantics.subject w12 = ValueSemantics.subject w2
      ∧ ValueSemantics.observers w12 = ValueSemantics.observers w2
      ∧ ValueSemantics.memory w12 = ValueSemantics.memory w2).
Proof.
  intros Hr Hv. split.
  - by apply ref_last_write_wins.
  - by apply val_last_write_wins.
Qed.

Lemma X6_last_write_wins_witness :
  ∃ wr12 wv12,
    ReferenceSemantics.run [SetB 2; SetB 3] reference_test_attached
    = Some wr12
    ∧ ReferenceSemantics.observe [1; 2; 3]%N wr12
      = (0, 3, [Some 0; Some 3; Some 3])
    ∧ ValueSemantics.run [SetB 2; SetB 3] value_test_attached = Some wv12
    ∧ ValueSemantics.observe test_watched wv12
      = (0, 3, [Some 0; Some 3; Some 3]).
Proof.
  destruct (X6_last_write_wins ReferenceSemantics.ValueB 2 3
              reference_test_attached value_test_attached
              reference_test_attached_live value_test_attached_from_header)
    as [(r1 & r12 & r2 & Hr1 & Hr12 & Hr2 & Hrs & Hro)
        (v1 & v12 & v2 & Hv1 & Hv12 & Hv2 & Hvs & _ & Hvm)].
  cbn [ReferenceSemantics.SetValue] in Hr1, Hr12.
  cbn [ValueSemantics.SetValue tag_value] in Hv1, Hv12.
  exists r12, v12.
  split; [cbn [ReferenceSemantics.run ReferenceSemantics.step];
          by rewrite Hr1, Hr12|].
  split.
  { unfold ReferenceSemantics.observe, ReferenceSemantics.cached.
    rewrite Hrs, Hro. vm_compute in Hr2. injection Hr2 as <-. reflexivity. }
  split; [cbn [ValueSemantics.run ValueSemantics.step];
          by rewrite Hv1, Hv12|].
  unfold ValueSemantics.observe.
  rewrite Hvs, Hvm. vm_compute in Hv2. injection Hv2 as <-. reflexivity.
Defined.

(** X7: the two setters commute.  [SetValueA(va); SetValueB(vb)] and
    [SetValueB(vb); SetValueA(va)] leave the subject and every observer in
    the same state. *)
Theorem X7_setters_commute (va vb : Z)
    (wr : ReferenceSemantics.World) (wv : ValueSemantics.World) :
  ReferenceSemantics.registered_live wr →
  ValueSemantics.registered_from_header wv →
  (∃ wa wab wb wba,
      ReferenceSemantics.SetValueA va wr = Some wa
      ∧ ReferenceSemantics.SetValueB vb wa = Some wab
      ∧ ReferenceSemantics.SetValueB vb wr = Some wb
      ∧ ReferenceSemantics.SetValueA va wb = Some wba
      ∧ ReferenceSemantics.subject wab = ReferenceSemantics.subject wba
      ∧ ReferenceSemantics.objects wab = ReferenceSemantics.objects wba)
  ∧ (∃ wa wab wb wba,
      ValueSemantics.SetValueA va wv = Some wa
      ∧ ValueSemantics.SetValueB vb wa = Some wab
      ∧ ValueSemantics.SetValueB vb wv = Some wb
      ∧ ValueSemantics.SetValueA va wb = Some wba
      ∧ ValueSemantics.subject wab = ValueSemantics.subject wba
      ∧ ValueSemantics.observers wab = ValueSemantics.observers wba
      ∧ ValueSemantics.memory wab = ValueSemantics.memory wba).
Proof.
  intros Hr Hv. split.
  - by apply ref_setters_commute.
  - by apply val_setters_commute.
Qed.

Lemma X7_setters_commute_witness :
  ∃ wab wba vab vba,
    ReferenceSemantics.run [SetA 4; SetB 6] reference_test_attached = Some wab
    ∧ ReferenceSemantics.run [SetB 6; SetA 4] reference_test_attached
      = Some wba
    ∧ ReferenceSemantics.observe [1; 2; 3]%N wab
      = ReferenceSemantics.observe [1; 2; 3]%N wba
    ∧ ValueSemantics.run [SetA 4; SetB 6] value_test_attached = Some vab
    ∧ ValueSemantics.run [SetB 6; SetA 4] value_test_attached = Some vba
    ∧ ValueSemantics.observe test_watched vab
      = ValueSemantics.observe test_watched vba.
Proof.
  destruct (X7_setters_commute 4 6
              reference_test_attached value_test_attached
              reference_test_attached_live value_test_attached_from_header)
    as [(ra & rab & rb & rba & Hra & Hrab & Hrb & Hrba & Hrs & Hro)
        (va & vab & vb & vba & Hva & Hvab & Hvb & Hvba & Hvs & _ & Hvm)].
  exists rab, rba, vab, vba.
  split; [cbn [ReferenceSemantics.run ReferenceSemantics.step];
          by rewrite Hra, Hrab|].
  split; [cbn [ReferenceSemantics.run ReferenceSemantics.step];
          by rewrite Hrb, Hrba|].
  split.
  { unfold ReferenceSemantics.observe, ReferenceSemantics.cached.
    by rewrite Hrs, Hro. }
  split; [cbn [ValueSemantics.run ValueSemantics.step];
          by rewrite Hva, Hvab|].
  split; [cbn [ValueSemantics.run ValueSemantics.step];
          by rewrite Hvb, Hvba|].
  unfold ValueSemantics.observe. by rewrite Hvs, Hvm.
Defined.

(** X8: as long as no observer is attached, registered observers stay in
    sync.  If every registered observer holds the current value of the field
    it acts on, then after any sequence of setter calls and detaches the
    calls have all succeeded and every observer that is still registered
    holds the current value of its field. *)
Theorem X8_registered_observers_stay_in_sync (ops : list Op)
    (wr : ReferenceSemantics.World) (wv : ValueSemantics.World) :
  (∀ p, Attach p ∉ ops) →
  ReferenceSemantics.registered_live wr →
  ReferenceSemantics.in_sync wr →
  ValueSemantics.registered_from_header wv →
  ValueSemantics.in_sync wv →
  (∃ wr', ReferenceSemantics.run ops wr = Some wr'
          ∧ ReferenceSemantics.in_sync wr')
  ∧ (∃ wv', ValueSemantics.run ops wv = Some wv'
            ∧ ValueSemantics.in_sync wv').
Proof.
  intros Hna Hr Hsr Hv Hsv. split.
  - destruct (ref_run_in_sync ops wr Hna Hr Hsr) as (w' & Hrun & _ & Hs).
    by exists w'.
  - destruct (val_run_in_sync ops wv Hna Hv Hsv) as (w' & Hrun & _ & Hs).
    by exists w'.
Qed.

Section sync_facts.

(** A wrapper acts on one tag and caches in one variable. *)
Lemma val_caches_fun o t y t' y' :
  ValueSemantics.caches o t y → ValueSemantics.caches o t' y' →
  t = t' ∧ y = y'.
Proof.
  intros H1 H2.
  pose proof (val_caches_spec _ _ _ H1
                (ValueSemantics.mkSubjectSystem ∅ 1 1) t ∅) as S1.
  pose proof (val_caches_spec _ _ _ H2
                (ValueSemantics.mkSubjectSystem ∅ 1 1) t ∅) as S2.
  rewrite S1, decide_True in S2 by done.
  assert (Hy : (<[y := ValueSemantics.GetValueOf t
                         (ValueSemantics.mkSubjectSystem ∅ 1 1)]>
                 (∅ : gmap ValueSemantics.variable Z)) !! y
               = Some (ValueSemantics.GetValueOf t
                         (ValueSemantics.mkSubjectSystem ∅ 1 1)))
    by apply lookup_insert_eq.
  rewrite S2 in Hy. case_decide as Ht; [|by rewrite lookup_empty in Hy].
  split; [done|].
  destruct (decide (y' = y)) as [->|Hne]; [done|].
  by rewrite lookup_insert_ne, lookup_empty in Hy.
Qed.

Lemma reference_test_attached_in_sync :
  ReferenceSemantics.in_sync reference_test_attached.
Proof.
  intros p o Hp Ho.
  assert (p = 1%N ∨ p = 2%N ∨ p = 3%N) as [->|[->| ->]]
    by (revert Hp; unfold reference_test_attached; simpl; set_solver);
    vm_compute in Ho; injection Ho as <-; reflexivity.
Qed.

Lemma value_test_attached_in_sync :
  ValueSemantics.in_sync value_test_attached.
Proof.
  intros p o t x Hp Ho Hc.
  assert (p = 1%N ∨ p = 2%N ∨ p = 3%N) as [->|[->| ->]]
    by (revert Hp; unfold value_test_attached; simpl; set_solver).
  - assert (o = ValueSemantics.SubjectObserverA.new 1) as ->
      by (apply (inj Some); rewrite <- Ho; reflexivity).
    destruct (val_caches_fun _ _ _ _ _ Hc
                (ValueSemantics.caches_SubjectObserverA 1)) as [-> ->].
    reflexivity.
  - assert (o = ValueSemantics.Observer.mk (ValueSemantics.lambdaB 0)) as ->
      by (apply (inj Some); rewrite <- Ho; reflexivity).
    destruct (val_caches_fun _ _ _ _ _ Hc
                (ValueSemantics.caches_lambdaB 0)) as [-> ->].
    reflexivity.
  - assert (o = ValueSemantics.Observer.mk ValueSemantics.OnNotification)
      as -> by (apply (inj Some); rewrite <- Ho; reflexivity).
    destruct (val_caches_fun _ _ _ _ _ Hc
                ValueSemantics.caches_OnNotification) as [-> ->].
    reflexivity.
Qed.

End sync_facts.

Lemma X8_registered_observers_stay_in_sync_witness :
  ∃ wr' wv',
    ReferenceSemantics.run setter_program reference_test_attached = Some wr'
    ∧ ReferenceSemantics.in_sync wr'
    ∧ ReferenceSemantics.observe [1; 3]%N wr' = (5, 8, [Some 5; Some 8])
    ∧ ValueSemantics.run setter_program value_test_attached = Some wv'
    ∧ ValueSemantics.in_sync wv'.
Proof.
  destruct (X8_registered_observers_stay_in_sync setter_program
              reference_test_attached value_test_attached)
    as [(wr' & Hrun_r & Hsync_r) (wv' & Hrun_v & Hsync_v)].
  - intros p. unfold setter_program. set_solver.
  - exact reference_test_attached_live.
  - exact reference_test_attached_in_sync.
  - exact value_test_attached_from_header.
  - exact value_test_attached_in_sync.
  - exists wr', wv'. split; [exact Hrun_r|]. split; [exact Hsync_r|].
    split; [|split; [exact Hrun_v|exact Hsync_v]].
    vm_compute in Hrun_r. injection Hrun_r as <-. reflexivity.
Defined.

(** X9: a setter does not compare the new value with the old one.  Storing
    the value the field already has leaves the subject as it is and still
    runs the broadcast: every registered handle is called exactly once and
    no other handle is called, every call carries the tag and the unchanged
    subject, and the state after the call is what these invocations of
    [OnNotification] leave.  When the registered observers were in sync,
    that state is the state before: every observer ends as it was. *)
Theorem X9_setter_notifies_without_change
    (tag : ReferenceSemantics.SubjectSystemTag)
    (wr : ReferenceSemantics.World) (wv : ValueSemantics.World) :
  ReferenceSemantics.registered_live wr →
  ValueSemantics.registered_live wv →
  (∃ wr' new,
      ReferenceSemantics.SetValue tag
        (ReferenceSemantics.GetValueOf tag (ReferenceSemantics.subject wr)) wr
      = Some wr'
      ∧ ReferenceSemantics.subject wr' = ReferenceSemantics.subject wr
      ∧ ReferenceSemantics.calls wr' = ReferenceSemantics.calls wr ++ new
      ∧ Forall (λ c, ReferenceSemantics.call_tag c = tag
                     ∧ ReferenceSemantics.call_subject c
                       = ReferenceSemantics.subject wr) new
      ∧ (∀ p, ReferenceSemantics.times_called p new
              = if decide (p ∈ ReferenceSemantics.m_Observers
                                 (ReferenceSemantics.subject wr))
                then 1%nat else 0%nat)
      ∧ length new
        = size (ReferenceSemantics.m_Observers
                  (ReferenceSemantics.subject wr))
      ∧ (∀ p, ReferenceSemantics.objects wr' !! p
              = if decide (p ∈ ReferenceSemantics.m_Observers
                                 (ReferenceSemantics.subject wr))
                then (λ o, ReferenceSemantics.OnNotification o
                             (ReferenceSemantics.subject wr) tag)
                       <$> ReferenceSemantics.objects wr !! p
                else ReferenceSemantics.objects wr !! p)
      ∧ (ReferenceSemantics.in_sync wr →
         ReferenceSemantics.objects wr' = ReferenceSemantics.objects wr))
  ∧ (∃ wv' new,
      ValueSemantics.SetValue (tag_value tag)
        (ValueSemantics.GetValueOf (tag_value tag)
           (ValueSemantics.subject wv)) wv
      = Some wv'
      ∧ ValueSemantics.subject wv' = ValueSemantics.subject wv
      ∧ ValueSemantics.observers wv' = ValueSemantics.observers wv
      ∧ ValueSemantics.calls wv' = ValueSemantics.calls wv ++ new
      ∧ Forall (λ c, ValueSemantics.call_tag c = tag_value tag
                     ∧ ValueSemantics.call_subject c
                       = ValueSemantics.subject wv) new
      ∧ (∀ p, ValueSemantics.times_called p new
              = if decide (p ∈ ValueSemantics.m_Observers
                                 (ValueSemantics.subject wv))
                then 1%nat else 0%nat)
      ∧ length new
        = size (ValueSemantics.m_Observers (ValueSemantics.subject wv))
      ∧ ValueSemantics.memory wv'
        = foldl (λ m p, from_option
                          (λ o, ValueSemantics.Observer.OnNotification o
                                  (ValueSemantics.subject wv)
                                  (tag_value tag) m)
                          m (ValueSemantics.observers wv !! p))
            (ValueSemantics.memory wv)
            (ValueSemantics.call_observer <$> new)
      ∧ (ValueSemantics.registered_from_header wv →
         ValueSemantics.in_sync wv →
         ValueSemantics.memory wv' = ValueSemantics.memory wv)).
Proof.
  intros Hr Hv. split.
  - destruct (ref_SetValue_next tag
                (ReferenceSemantics.GetValueOf tag
                   (ReferenceSemantics.subject wr)) wr Hr)
      as (wr' & Hrun & Hs & _ & Hc & Ho & _).
    assert (Hsame : ReferenceSemantics.assign tag
                      (ReferenceSemantics.GetValueOf tag
                         (ReferenceSemantics.subject wr))
                      (ReferenceSemantics.subject wr)
                    = ReferenceSemantics.subject wr)
      by (destruct (ReferenceSemantics.subject wr), tag; done).
    rewrite Hsame in Hs, Hc, Ho.
    eexists wr', _. split; [exact Hrun|]. split; [exact Hs|].
    split; [exact Hc|]. split.
    { apply Forall_fmap, Forall_forall. by intros p _. }
    split; [intros p; apply ref_times_called_new|].
    split; [by rewrite length_fmap, iteration_order_length|].
    split; [exact Ho|].
    intros Hsync.
    destruct (ref_SetValue_same tag wr Hr Hsync) as (w2 & Hrun2 & _ & Ho2 & _).
    congruence.
  - destruct (val_SetValue_spec (tag_value tag)
                (ValueSemantics.GetValueOf (tag_value tag)
                   (ValueSemantics.subject wv)) wv Hv)
      as (wv' & Hrun & Hs & Hobs & Hc & Hm).
    assert (Hsame : ValueSemantics.assign (tag_value tag)
                      (ValueSemantics.GetValueOf (tag_value tag)
                         (ValueSemantics.subject wv))
                      (ValueSemantics.subject wv)
                    = ValueSemantics.subject wv)
      by (destruct (ValueSemantics.subject wv), tag; done).
    rewrite Hsame in Hs, Hc, Hm.
    eexists wv', _. split; [exact Hrun|]. split; [exact Hs|].
    split; [exact Hobs|]. split; [exact Hc|]. split.
    { apply Forall_fmap, Forall_forall. by intros p _. }
    split; [intros p; apply val_times_called_new|].
    split; [by rewrite length_fmap, iteration_order_length|].
    split.
    { rewrite Hm, <- list_fmap_compose.
      change (ValueSemantics.call_observer ∘ _) with (@id ptr).
      by rewrite list_fmap_id. }
    intros Hhdr Hsync.
    destruct (val_SetValue_same (tag_value tag) wv Hhdr Hsync)
      as (w2 & Hrun2 & _ & _ & Hm2 & _).
    congruence.
Qed.

Lemma X9_setter_notifies_without_change_witness :
  (∃ wr' wv',
      ReferenceSemantics.SetValueA 0 reference_test_attached = Some wr'
      ∧ ReferenceSemantics.objects wr'
        = ReferenceSemantics.objects reference_test_attached
      ∧ ReferenceSemantics.call_observer <$> ReferenceSemantics.calls wr'
        = [1; 2; 3]%N
      ∧ ValueSemantics.SetValueA 0 value_test_attached = Some wv'
      ∧ ValueSemantics.memory wv' = ValueSemantics.memory value_test_attached
      ∧ ValueSemantics.call_observer <$> ValueSemantics.calls wv'
        = [1; 2; 3]%N)
  ∧ (∃ wr' wv',
      ReferenceSemantics.SetValueA 6 reference_test_stale = Some wr'
      ∧ ReferenceSemantics.observe [1; 2; 3]%N reference_test_stale
        = (6, 0, [Some 0; Some 0; Some 0])
      ∧ ReferenceSemantics.observe [1; 2; 3]%N wr'
        = (6, 0, [Some 6; Some 0; Some 0])
      ∧ ValueSemantics.SetValueA 6 value_test_stale = Some wv'
      ∧ ValueSemantics.observe test_watched value_test_stale
        = (6, 0, [Some 0; Some 0; Some 0])
      ∧ ValueSemantics.observe test_watched wv'
        = (6, 0, [Some 6; Some 0; Some 0])).
Proof.
  split.
  - destruct (X9_setter_notifies_without_change ReferenceSemantics.ValueA
                reference_test_attached value_test_attached
                reference_test_attached_live value_test_attached_live)
      as [(wr' & newr & Hrun_r & _ & _ & _ & _ & _ & _ & Hobj)
          (wv' & newv & Hrun_v & _ & _ & _ & _ & _ & _ & _ & Hmem)].
    exists wr', wv'. split; [exact Hrun_r|].
    split; [exact (Hobj reference_test_attached_in_sync)|].
    split.
    { pose proof Hrun_r as Hw. vm_compute in Hw. injection Hw as <-.
      reflexivity. }
    split; [exact Hrun_v|].
    split; [exact (Hmem value_test_attached_from_header
                     value_test_attached_in_sync)|].
    pose proof Hrun_v as Hw. vm_compute in Hw. injection Hw as <-.
    reflexivity.
  - destruct (X9_setter_notifies_without_change ReferenceSemantics.ValueA
                reference_test_stale value_test_stale
                reference_test_attached_live value_test_attached_live)
      as [(wr' & newr & Hrun_r & Hs_r & _ & _ & _ & _ & Hobj & _)
          (wv' & newv & Hrun_v & _)].
    exists wr', wv'. split; [exact Hrun_r|]. split; [reflexivity|].
    split.
    { unfold ReferenceSemantics.observe, ReferenceSemantics.cached. simpl.
      by rewrite !Hobj, Hs_r. }
    split; [exact Hrun_v|]. split; [reflexivity|].
    pose proof Hrun_v as Hw. vm_compute in Hw. injection Hw as <-.
    reflexivity.
Defined.

(** ** The benchmarks *)

Section reference_benchmark.
Import ReferenceSemantics.

Lemma ref_create_observers_spec (l : list ptr) (w : World) :
  m_Observers (subject (foldl create_observer w l))
  = list_to_set l ∪ m_Observers (subject w)
  ∧ m_ValueA (subject (foldl create_observer w l)) = m_ValueA (subject w)
  ∧ m_ValueB (subject (foldl create_observer w l)) = m_ValueB (subject w)
  ∧ calls (foldl create_observer w l) = calls w
  ∧ ∀ q, objects (foldl create_observer w l) !! q
         = if decide (q ∈ l) then Some (ObjectA SubjectObserverA.new)
           else objects w !! q.
Proof.
  revert w. induction l as [|p l IH]; intros w.
  - simpl. split_and!; try done. set_solver.
  - destruct (IH (create_observer w p)) as (HX & HA & HB & Hc & Ho).
    simpl. rewrite HX, HA, HB, Hc. split_and!; try done.
    { simpl. set_solver. }
    intros q. rewrite Ho. simpl.
    destruct (decide (q ∈ l)) as [Hq|Hq].
    + by rewrite decide_True by (by right).
    + destruct (decide (q = p)) as [->|Hne].
      * rewrite decide_True by (by left). by rewrite lookup_insert_eq.
      * rewrite decide_False by (rewrite elem_of_cons; naive_solver).
        by rewrite lookup_insert_ne.
Qed.

Lemma ref_benchmark_setup_live (l : list ptr) :
  registered_live (benchmark_setup l).
Proof.
  destruct (ref_create_observers_spec l World_new) as (HX & _ & _ & _ & Ho).
  intros q Hq. unfold benchmark_setup in *. rewrite HX in Hq.
  apply elem_of_dom. rewrite Ho, decide_True; [by eexists|].
  revert Hq. simpl. set_solver.
Qed.

Lemma ref_benchmark_setup_in_sync (l : list ptr) :
  in_sync (benchmark_setup l).
Proof.
  destruct (ref_create_observers_spec l World_new) as (HX & HA & HB & _ & Ho).
  intros q o Hq Hobj. unfold benchmark_setup in *. rewrite HX in Hq.
  rewrite Ho, decide_True in Hobj by (revert Hq; simpl; set_solver).
  injection Hobj as <-. simpl. unfold GetValueA. by rewrite HA.
Qed.

Lemma ref_Attach_present (p : ptr) (w : World) :
  p ∈ m_Observers (subject w) → AttachObserver p w = w.
Proof.
  intros Hp. destruct w as [[X a b] o c]. simpl in *.
  unfold AttachObserver, set_subject. simpl.
  by replace ({[p]} ∪ X) with X by set_solver.
Qed.

Lemma ref_benchmark_Attach_present (l : list ptr) (w : World) :
  (∀ p, p ∈ l → p ∈ m_Observers (subject w)) →
  benchmark_Attach l w = w.
Proof.
  induction l as [|p l IH]; intros Hl; [done|].
  unfold benchmark_Attach in *. simpl.
  rewrite ref_Attach_present by (apply Hl; by left).
  apply IH. intros q Hq. apply Hl. by right.
Qed.

End reference_benchmark.

Section value_benchmark.
Import ValueSemantics.

Lemma val_create_observers_spec (l : list ptr) (w : World) :
  m_Observers (subject (foldl create_observer w l))
  = list_to_set l ∪ m_Observers (subject w)
  ∧ m_ValueA (subject (foldl create_observer w l)) = m_ValueA (subject w)
  ∧ m_ValueB (subject (foldl create_observer w l)) = m_ValueB (subject w)
  ∧ calls (foldl create_observer w l) = calls w
  ∧ (∀ q, observers (foldl create_observer w l) !! q
          = if decide (q ∈ l) then Some (SubjectObserverA.new q)
            else observers w !! q)
  ∧ ∀ x, memory (foldl create_observer w l) !! x
         = match x with
           | m_Value_of q => if decide (q ∈ l) then Some 0 else memory w !! x
           | _ => memory w !! x
           end.
Proof.
  revert w. induction l as [|p l IH]; intros w.
  - simpl. split_and!; try done; [set_solver|].
    intros x. by destruct x.
  - destruct (IH (create_observer w p)) as (HX & HA & HB & Hc & Ho & Hm).
    simpl. rewrite HX, HA, HB, Hc. split_and!; try done.
    + simpl. set_solver.
    + intros q. rewrite Ho. simpl.
      destruct (decide (q ∈ l)) as [Hq|Hq].
      * by rewrite decide_True by (by right).
      * destruct (decide (q = p)) as [->|Hne].
        -- rewrite decide_True by (by left). by rewrite lookup_insert_eq.
        -- rewrite decide_False by (rewrite elem_of_cons; naive_solver).
           by rewrite lookup_insert_ne.
    + intros x. rewrite Hm. simpl.
      destruct x as [q| |n]; [|by rewrite lookup_insert_ne..].
      destruct (decide (q ∈ l)) as [Hq|Hq].
      * by rewrite decide_True by (by right).
      * destruct (decide (q = p)) as [->|Hne].
        -- rewrite decide_True by (by left). by rewrite lookup_insert_eq.
        -- rewrite decide_False by (rewrite elem_of_cons; naive_solver).
           rewrite lookup_insert_ne; [done|congruence].
Qed.

Lemma val_benchmark_Object_from_header (l : list ptr) :
  registered_from_header (benchmark_Object_setup l).
Proof.
  destruct (val_create_observers_spec l World_new)
    as (HX & _ & _ & _ & Ho & _).
  intros q Hq. unfold benchmark_Object_setup in *. rewrite HX in Hq.
  exists (SubjectObserverA.new q), ValueA, (m_Value_of q).
  split; [|constructor].
  rewrite Ho, decide_True; [done|]. revert Hq. simpl. set_solver.
Qed.

Lemma val_benchmark_Object_in_sync (l : list ptr) :
  in_sync (benchmark_Object_setup l).
Proof.
  destruct (val_create_observers_spec l World_new)
    as (HX & HA & HB & _ & Ho & Hm).
  intros q o t x Hq Hobj Hc. unfold benchmark_Object_setup in *.
  rewrite HX in Hq.
  assert (Hin : q ∈ l) by (revert Hq; simpl; set_solver).
  rewrite Ho, decide_True in Hobj by done. injection Hobj as <-.
  destruct (val_caches_fun _ _ _ _ _ Hc (caches_SubjectObserverA q))
    as [-> ->].
  rewrite Hm, decide_True by done. simpl. unfold GetValueA. by rewrite HA.
Qed.

Lemma val_Attach_present (p : ptr) (w : World) :
  p ∈ m_Observers (subject w) → AttachObserver p w = w.
Proof.
  intros Hp. destruct w as [[X a b] o m c]. simpl in *.
  unfold AttachObserver, set_subject. simpl.
  by replace ({[p]} ∪ X) with X by set_solver.
Qed.

Lemma val_benchmark_Attach_present (l : list ptr) (w : World) :
  (∀ p, p ∈ l → p ∈ m_Observers (subject w)) →
  benchmark_Attach l w = w.
Proof.
  induction l as [|p l IH]; intros Hl; [done|].
  unfold benchmark_Attach in *. simpl.
  rewrite val_Attach_present by (apply Hl; by left).
  apply IH. intros q Hq. apply Hl. by right.
Qed.

End value_benchmark.

Lemma benchmark_setup_size_and_calls (observers : list ptr) :
  NoDup observers →
  (size (ReferenceSemantics.m_Observers
           (ReferenceSemantics.subject
              (ReferenceSemantics.benchmark_setup observers)))
   = length observers
   ∧ ReferenceSemantics.calls (ReferenceSemantics.benchmark_setup observers)
     = [])
  ∧ (size (ValueSemantics.m_Observers
             (ValueSemantics.subject
                (ValueSemantics.benchmark_Object_setup observers)))
     = length observers
     ∧ ValueSemantics.calls (ValueSemantics.benchmark_Object_setup observers)
       = []).
Proof.
  intros Hnd. split.
  - destruct (ref_create_observers_spec observers ReferenceSemantics.World_new)
      as (HX & _ & _ & Hc & _).
    unfold ReferenceSemantics.benchmark_setup. rewrite HX, Hc.
    split; [|done]. simpl.
    replace (list_to_set observers ∪ ∅) with (list_to_set observers : gset ptr)
      by set_solver.
    by apply size_list_to_set.
  - destruct (val_create_observers_spec observers ValueSemantics.World_new)
      as (HX & _ & _ & Hc & _).
    unfold ValueSemantics.benchmark_Object_setup. rewrite HX, Hc.
    split; [|done]. simpl.
    replace (list_to_set observers ∪ ∅) with (list_to_set observers : gset ptr)
      by set_solver.
    by apply size_list_to_set.
Qed.

Lemma benchmark_setup_ValueA (observers : list ptr) :
  ReferenceSemantics.GetValueOf ReferenceSemantics.ValueA
    (ReferenceSemantics.subject (ReferenceSemantics.benchmark_setup observers))
  = 0
  ∧ ValueSemantics.GetValueOf ValueSemantics.ValueA
      (ValueSemantics.subject
         (ValueSemantics.benchmark_Object_setup observers))
    = 0.
Proof.
  split.
  - destruct (ref_create_observers_spec observers ReferenceSemantics.World_new)
      as (_ & HA & _).
    exact HA.
  - destruct (val_create_observers_spec observers ValueSemantics.World_new)
      as (_ & HA & _).
    exact HA.
Qed.

(** X10: the creation loop of the object benchmarks.  After observers have
    been created at distinct addresses and attached, the registered set is
    the set of these addresses and has as many elements as observers were
    created, no notification has been sent, and every observer reads 0. *)
Theorem X10_benchmark_setup (observers : list ptr) :
  NoDup observers →
  (ReferenceSemantics.m_Observers
     (ReferenceSemantics.subject
        (ReferenceSemantics.benchmark_setup observers))
   = list_to_set observers
   ∧ size (ReferenceSemantics.m_Observers
             (ReferenceSemantics.subject
                (ReferenceSemantics.benchmark_setup observers)))
     = length observers
   ∧ ReferenceSemantics.calls (ReferenceSemantics.benchmark_setup observers)
     = []
   ∧ ∀ p, p ∈ observers →
          ReferenceSemantics.cached p
            (ReferenceSemantics.benchmark_setup observers) = Some 0)
  ∧ (ValueSemantics.m_Observers
       (ValueSemantics.subject
          (ValueSemantics.benchmark_Object_setup observers))
     = list_to_set observers
     ∧ size (ValueSemantics.m_Observers
               (ValueSemantics.subject
                  (ValueSemantics.benchmark_Object_setup observers)))
       = length observers
     ∧ ValueSemantics.calls (ValueSemantics.benchmark_Object_setup observers)
       = []
     ∧ ∀ p, p ∈ observers →
            ValueSemantics.SubjectObserverA.GetValue p
              (ValueSemantics.memory
                 (ValueSemantics.benchmark_Object_setup observers))
            = Some 0).
Proof.
  intros Hnd. split.
  - destruct (ref_create_observers_spec observers ReferenceSemantics.World_new)
      as (HX & _ & _ & Hc & Ho).
    unfold ReferenceSemantics.benchmark_setup.
    assert (HX' : ReferenceSemantics.m_Observers
                    (ReferenceSemantics.subject
                       (foldl ReferenceSemantics.create_observer
                          ReferenceSemantics.World_new observers))
                  = list_to_set observers)
      by (rewrite HX; simpl; set_solver).
    split; [done|]. split; [by rewrite HX', size_list_to_set|].
    split; [done|]. intros p Hp. unfold ReferenceSemantics.cached.
    by rewrite Ho, decide_True.
  - destruct (val_create_observers_spec observers ValueSemantics.World_new)
      as (HX & _ & _ & Hc & _ & Hm).
    unfold ValueSemantics.benchmark_Object_setup.
    assert (HX' : ValueSemantics.m_Observers
                    (ValueSemantics.subject
                       (foldl ValueSemantics.create_observer
                          ValueSemantics.World_new observers))
                  = list_to_set observers)
      by (rewrite HX; simpl; set_solver).
    split; [done|]. split; [by rewrite HX', size_list_to_set|].
    split; [done|]. intros p Hp.
    unfold ValueSemantics.SubjectObserverA.GetValue.
    by rewrite Hm, decide_True.
Qed.

Lemma benchmark_addresses_NoDup : NoDup benchmark_addresses.
Proof. apply (bool_decide_unpack _). vm_compute. exact I. Qed.

Lemma X10_benchmark_setup_witness :
  NoDup benchmark_addresses
  ∧ size (ReferenceSemantics.m_Observers
            (ReferenceSemantics.subject
               (ReferenceSemantics.benchmark_setup benchmark_addresses)))
    = 4%nat
  ∧ size (ValueSemantics.m_Observers
            (ValueSemantics.subject
               (ValueSemantics.benchmark_Object_setup benchmark_addresses)))
    = 4%nat.
Proof.
  split; [exact benchmark_addresses_NoDup|].
  destruct (X10_benchmark_setup benchmark_addresses benchmark_addresses_NoDup)
    as [(_ & Hr & _) (_ & Hv & _)].
  split; [exact Hr|exact Hv].
Defined.

(** X11: the body of "Benchmark Attach" changes nothing.  All the observers
    it attaches are registered already by the creation loop, so every
    iteration of the benchmark leaves the world exactly as it found it. *)
Theorem X11_benchmark_Attach_changes_nothing (observers : list ptr) :
  ReferenceSemantics.benchmark_Attach observers
    (ReferenceSemantics.benchmark_setup observers)
  = ReferenceSemantics.benchmark_setup observers
  ∧ ValueSemantics.benchmark_Attach observers
      (ValueSemantics.benchmark_Object_setup observers)
    = ValueSemantics.benchmark_Object_setup observers.
Proof.
  split.
  - apply ref_benchmark_Attach_present. intros p Hp.
    destruct (ref_create_observers_spec observers ReferenceSemantics.World_new)
      as (HX & _).
    unfold ReferenceSemantics.benchmark_setup. rewrite HX. set_solver.
  - apply val_benchmark_Attach_present. intros p Hp.
    destruct (val_create_observers_spec observers ValueSemantics.World_new)
      as (HX & _).
    unfold ValueSemantics.benchmark_Object_setup. rewrite HX. set_solver.
Qed.

(** X12: the body of "Benchmark Notification" of the object benchmarks,
    [subject.SetValueA(0)].  It is defined and calls [OnNotification] exactly
    once on each of the observers created and on no other handle, every call
    with the tag [ValueA] and the subject as it is.  As the field is 0
    already and every observer reads 0, the call leaves the subject and all
    observers as they were, so every iteration measures the same work.  The
    observers are reached for real: the same call with any value [v] makes
    each of them read [v]. *)
Theorem X12_benchmark_Notification (observers : list ptr) :
  NoDup observers →
  (∃ wr',
      ReferenceSemantics.benchmark_Notification
        (ReferenceSemantics.benchmark_setup observers) = Some wr'
      ∧ ReferenceSemantics.subject wr'
        = ReferenceSemantics.subject
            (ReferenceSemantics.benchmark_setup observers)
      ∧ ReferenceSemantics.objects wr'
        = ReferenceSemantics.objects
            (ReferenceSemantics.benchmark_setup observers)
      ∧ length (ReferenceSemantics.calls wr') = length observers
      ∧ (∀ p, ReferenceSemantics.times_called p
                (ReferenceSemantics.calls wr')
              = if decide (p ∈ observers) then 1%nat else 0%nat)
      ∧ Forall (λ c, ReferenceSemantics.call_tag c
                     = ReferenceSemantics.ValueA
                     ∧ ReferenceSemantics.call_subject c
                       = ReferenceSemantics.subject
                           (ReferenceSemantics.benchmark_setup observers))
          (ReferenceSemantics.calls wr')
      ∧ ∀ v, ∃ w,
          ReferenceSemantics.SetValueA v
            (ReferenceSemantics.benchmark_setup observers) = Some w
          ∧ ∀ p, p ∈ observers → ReferenceSemantics.cached p w = Some v)
  ∧ (∃ wv',
      ValueSemantics.benchmark_Notification
        (ValueSemantics.benchmark_Object_setup observers) = Some wv'
      ∧ ValueSemantics.subject wv'
        = ValueSemantics.subject
            (ValueSemantics.benchmark_Object_setup observers)
      ∧ ValueSemantics.memory wv'
        = ValueSemantics.memory
            (ValueSemantics.benchmark_Object_setup observers)
      ∧ length (ValueSemantics.calls wv') = length observers
      ∧ (∀ p, ValueSemantics.times_called p (ValueSemantics.calls wv')
              = if decide (p ∈ observers) then 1%nat else 0%nat)
      ∧ Forall (λ c, ValueSemantics.call_tag c = ValueSemantics.ValueA
                     ∧ ValueSemantics.call_subject c
                       = ValueSemantics.subject
                           (ValueSemantics.benchmark_Object_setup observers))
          (ValueSemantics.calls wv')
      ∧ ∀ v, ∃ w,
          ValueSemantics.SetValueA v
            (ValueSemantics.benchmark_Object_setup observers) = Some w
          ∧ ∀ p, p ∈ observers →
                 ValueSemantics.SubjectObserverA.GetValue p
                   (ValueSemantics.memory w) = Some v).
Proof.
  intros Hnd.
  destruct (benchmark_setup_size_and_calls observers Hnd)
    as [(Hsr & Hcr) (Hsv & Hcv)].
  split.
  - set (w0 := ReferenceSemantics.benchmark_setup observers) in *.
    pose proof (ref_benchmark_setup_live observers) as Hlive.
    fold w0 in Hlive.
    assert (HX : ∀ p, p ∈ ReferenceSemantics.m_Observers
                            (ReferenceSemantics.subject w0)
                      ↔ p ∈ observers).
    { intros p. subst w0. unfold ReferenceSemantics.benchmark_setup.
      destruct (ref_create_observers_spec observers
                  ReferenceSemantics.World_new) as (-> & _).
      simpl. set_solver. }
    assert (Hobj0 : ∀ p, p ∈ observers →
              ReferenceSemantics.objects w0 !! p
              = Some (ReferenceSemantics.ObjectA
                        ReferenceSemantics.SubjectObserverA.new)).
    { intros p Hp. subst w0. unfold ReferenceSemantics.benchmark_setup.
      destruct (ref_create_observers_spec observers
                  ReferenceSemantics.World_new) as (_ & _ & _ & _ & Ho).
      by rewrite Ho, decide_True. }
    destruct (ref_SetValue_same ReferenceSemantics.ValueA w0 Hlive
                (ref_benchmark_setup_in_sync observers))
      as (w' & Hrun & Hs & Ho & Hlen).
    unfold w0 in Hrun.
    rewrite (proj1 (benchmark_setup_ValueA observers)) in Hrun.
    fold w0 in Hrun.
    destruct (ref_SetValue_next ReferenceSemantics.ValueA 0 w0 Hlive)
      as (w2 & Hrun2 & Hs2 & _ & Hc2 & _).
    assert (w2 = w') as -> by congruence.
    rewrite Hcr in Hc2. simpl in Hc2.
    exists w'. split; [exact Hrun|]. split; [done|]. split; [done|].
    split; [by rewrite Hlen, Hcr, Hsr|]. split; [|split].
    + intros p. rewrite Hc2, ref_times_called_new.
      apply decide_ext, HX.
    + rewrite Hc2. apply Forall_fmap, Forall_forall. intros p _. simpl.
      split; [done|]. etrans; [symmetry; exact Hs2|exact Hs].
    + intros v.
      destruct (ref_SetValue_next ReferenceSemantics.ValueA v w0 Hlive)
        as (w & Hrunv & _ & _ & _ & Hov & _).
      exists w. split; [exact Hrunv|]. intros p Hp.
      unfold ReferenceSemantics.cached.
      rewrite Hov, decide_True, (Hobj0 p Hp) by (by apply HX).
      reflexivity.
  - set (w0 := ValueSemantics.benchmark_Object_setup observers) in *.
    pose proof (val_benchmark_Object_from_header observers) as Hhdr.
    fold w0 in Hhdr.
    assert (HX : ∀ p, p ∈ ValueSemantics.m_Observers
                            (ValueSemantics.subject w0)
                      ↔ p ∈ observers).
    { intros p. subst w0. unfold ValueSemantics.benchmark_Object_setup.
      destruct (val_create_observers_spec observers
                  ValueSemantics.World_new) as (-> & _).
      simpl. set_solver. }
    assert (Hobj0 : ∀ p, p ∈ observers →
              ValueSemantics.observers w0 !! p
              = Some (ValueSemantics.SubjectObserverA.new p)).
    { intros p Hp. subst w0. unfold ValueSemantics.benchmark_Object_setup.
      destruct (val_create_observers_spec observers
                  ValueSemantics.World_new) as (_ & _ & _ & _ & Ho & _).
      by rewrite Ho, decide_True. }
    destruct (val_SetValue_same ValueSemantics.ValueA w0 Hhdr
                (val_benchmark_Object_in_sync observers))
      as (w' & Hrun & Hs & _ & Hm & Hlen).
    unfold w0 in Hrun.
    rewrite (proj2 (benchmark_setup_ValueA observers)) in Hrun.
    fold w0 in Hrun.
    destruct (val_SetValue_next ValueSemantics.ValueA 0 w0 Hhdr)
      as (w2 & Hrun2 & Hs2 & _ & _ & Hc2 & _).
    assert (w2 = w') as -> by congruence.
    rewrite Hcv in Hc2. simpl in Hc2.
    exists w'. split; [exact Hrun|]. split; [done|]. split; [done|].
    split; [by rewrite Hlen, Hcv, Hsv|]. split; [|split].
    + intros p. rewrite Hc2, val_times_called_new.
      apply decide_ext, HX.
    + rewrite Hc2. apply Forall_fmap, Forall_forall. intros p _. simpl.
      split; [done|]. etrans; [symmetry; exact Hs2|exact Hs].
    + intros v.
      destruct (val_SetValue_next ValueSemantics.ValueA v w0 Hhdr)
        as (w & Hrunv & _ & _ & _ & _ & Hmv & _).
      exists w. split; [exact Hrunv|]. intros p Hp.
      unfold ValueSemantics.SubjectObserverA.GetValue. rewrite Hmv.
      rewrite (val_foldl_written (ValueSemantics.observers w0)
                 (ValueSemantics.assign ValueSemantics.ValueA v
                    (ValueSemantics.subject w0))
                 ValueSemantics.ValueA (ValueSemantics.m_Value_of p)).
      * reflexivity.
      * intros q Hq. apply Hhdr. by apply elem_of_iteration_order.
      * right. exists p, (ValueSemantics.SubjectObserverA.new p).
        split; [apply elem_of_iteration_order; by apply HX|].
        split; [by apply Hobj0|constructor].
Qed.

Lemma X12_benchmark_Notification_witness :
  NoDup benchmark_addresses
  ∧ ∃ wr' wv' wr8 wv8,
      ReferenceSemantics.benchmark_Notification
        (ReferenceSemantics.benchmark_setup benchmark_addresses) = Some wr'
      ∧ ReferenceSemantics.call_observer <$> ReferenceSemantics.calls wr'
        = [2; 5; 7; 9]%N
      ∧ ReferenceSemantics.SetValueA 8
          (ReferenceSemantics.benchmark_setup benchmark_addresses) = Some wr8
      ∧ ReferenceSemantics.cached 7 wr8 = Some 8
      ∧ ValueSemantics.benchmark_Notification
          (ValueSemantics.benchmark_Object_setup benchmark_addresses)
        = Some wv'
      ∧ ValueSemantics.call_observer <$> ValueSemantics.calls wv'
        = [2; 5; 7; 9]%N
      ∧ ValueSemantics.SetValueA 8
          (ValueSemantics.benchmark_Object_setup benchmark_addresses)
        = Some wv8
      ∧ ValueSemantics.SubjectObserverA.GetValue 7
          (ValueSemantics.memory wv8) = Some 8.
Proof.
  split; [exact benchmark_addresses_NoDup|].
  destruct (X12_benchmark_Notification benchmark_addresses
              benchmark_addresses_NoDup)
    as [(wr' & Hrun_r & _ & _ & _ & _ & _ & Hv_r)
        (wv' & Hrun_v & _ & _ & _ & _ & _ & Hv_v)].
  destruct (Hv_r 8) as (wr8 & Hrun_r8 & Hcached_r).
  destruct (Hv_v 8) as (wv8 & Hrun_v8 & Hcached_v).
  assert (Hin : 7%N ∈ benchmark_addresses)
    by (unfold benchmark_addresses; set_solver).
  exists wr', wv', wr8, wv8. split; [exact Hrun_r|].
  split.
  { pose proof Hrun_r as Hw. vm_compute in Hw. injection Hw as <-.
    reflexivity. }
  split; [exact Hrun_r8|]. split; [exact (Hcached_r 7%N Hin)|].
  split; [exact Hrun_v|].
  split.
  { pose proof Hrun_v as Hw. vm_compute in Hw. injection Hw as <-.
    reflexivity. }
  split; [exact Hrun_v8|]. exact (Hcached_v 7%N Hin).
Defined.

Section value_copies.
Import ValueSemantics.

Lemma val_create_copies_spec (other : ptr) (f : OnNotificationFunc)
    (l : list ptr) (w : World) :
  observers w !! other = Some (Observer.mk f) →
  ∃ w', for_each (create_copy other) l w = Some w'
    ∧ m_Observers (subject w') = list_to_set l ∪ m_Observers (subject w)
    ∧ m_ValueA (subject w') = m_ValueA (subject w)
    ∧ m_ValueB (subject w') = m_ValueB (subject w)
    ∧ calls w' = calls w
    ∧ memory w' = memory w
    ∧ ∀ q, observers w' !! q
           = if decide (q ∈ l) then Some (Observer.mk f)
             else observers w !! q.
Proof.
  revert w. induction l as [|p l IH]; intros w Hother.
  - exists w. simpl. split_and!; try done. set_solver.
  - simpl. unfold create_copy at 1, copy_Observer. rewrite Hother. simpl.
    set (w1 := AttachObserver p (declare_Observer p f w)).
    destruct (IH w1) as (w' & Hrun & HX & HA & HB & Hc & Hm & Ho).
    { simpl. destruct (decide (p = other)) as [->|Hne].
      - by rewrite lookup_insert_eq.
      - by rewrite lookup_insert_ne. }
    exists w'. split; [done|]. rewrite HX, HA, HB, Hc, Hm.
    split_and!; try done.
    + simpl. set_solver.
    + intros q. rewrite Ho. simpl.
      destruct (decide (q ∈ l)) as [Hq|Hq].
      * by rewrite decide_True by (by right).
      * destruct (decide (q = p)) as [->|Hne].
        -- rewrite decide_True by (by left). by rewrite lookup_insert_eq.
        -- rewrite decide_False by (rewrite elem_of_cons; naive_solver).
           by rewrite lookup_insert_ne.
Qed.

(** A broadcast over wrappers whose callables ignore the tag writes
    nothing. *)
Lemma val_foldl_ignored (obs : gmap ptr Observer.t) s tag (l : list ptr)
    (m : gmap variable Z) :
  (∀ p o, p ∈ l → obs !! p = Some o →
          ∀ m', Observer.OnNotification o s tag m' = m') →
  foldl (λ m p, from_option (λ o, Observer.OnNotification o s tag m)
                  m (obs !! p)) m l
  = m.
Proof.
  revert m. induction l as [|q l IH]; intros m Hign; [done|].
  simpl. rewrite IH by (intros p o Hp; apply Hign; by right).
  destruct (obs !! q) as [o|] eqn:Ho; [|done]. simpl.
  apply (Hign q o); [by left|done].
Qed.

(** The world of a benchmark whose observers are all copies of a wrapper
    of a callable that acts on [ValueB] only. *)
Lemma val_copies_Notification (f : OnNotificationFunc) (l : list ptr)
    (w : World) :
  (∀ s m, f s ValueA m = m) →
  m_Observers (subject w) = list_to_set l →
  (∀ q, q ∈ l → observers w !! q = Some (Observer.mk f)) →
  ∃ w', benchmark_Notification w = Some w'
    ∧ memory w' = memory w
    ∧ length (calls w') = (length (calls w) + size (m_Observers (subject w)))%nat.
Proof.
  intros Hf HX Hobs.
  assert (Hlive : registered_live w).
  { intros q Hq. rewrite HX in Hq. apply elem_of_dom.
    rewrite Hobs; [by eexists|]. set_solver. }
  destruct (val_SetValue_spec ValueA 0 w Hlive)
    as (w' & Hrun & _ & _ & Hc & Hm).
  exists w'. split; [exact Hrun|]. split.
  - rewrite Hm. apply val_foldl_ignored.
    intros p o Hp Ho m'. apply elem_of_iteration_order in Hp.
    rewrite HX in Hp. rewrite Hobs in Ho by set_solver.
    injection Ho as <-. apply Hf.
  - by rewrite Hc, length_app, length_fmap, iteration_order_length.
Qed.

(** The same world under both setters, when the callable copied is one of
    the header's that acts on [ValueB] and caches in [x]. *)
Lemma val_copies_setters (f : OnNotificationFunc) (x : variable)
    (l : list ptr) (w : World) :
  caches (Observer.mk f) ValueB x →
  m_Observers (subject w) = list_to_set l →
  (∀ q, q ∈ l → observers w !! q = Some (Observer.mk f)) →
  calls w = [] →
  (∃ w', benchmark_Notification w = Some w'
     ∧ memory w' = memory w
     ∧ (∀ p, times_called p (calls w')
             = if decide (p ∈ l) then 1%nat else 0%nat)
     ∧ Forall (λ c, call_tag c = ValueA) (calls w'))
  ∧ ∀ v, ∃ w', SetValueB v w = Some w'
               ∧ ∀ p, p ∈ l → memory w' !! x = Some v.
Proof.
  intros Hcaches HX Hobs Hcalls.
  assert (Hhdr : registered_from_header w).
  { intros q Hq. rewrite HX in Hq. exists (Observer.mk f), ValueB, x.
    split; [apply Hobs; set_solver|done]. }
  split.
  - destruct (val_SetValue_next ValueA 0 w Hhdr)
      as (w' & Hrun & _ & _ & _ & Hc & Hm & _).
    exists w'. split; [exact Hrun|]. split; [|split].
    + rewrite Hm. apply val_foldl_ignored.
      intros p o Hp Ho m'. apply elem_of_iteration_order in Hp.
      rewrite HX in Hp. rewrite Hobs in Ho by set_solver.
      injection Ho as <-.
      by rewrite (val_caches_spec _ _ _ Hcaches), decide_False.
    + intros p. rewrite Hc, Hcalls. simpl.
      rewrite val_times_called_new, HX.
      apply decide_ext. set_solver.
    + rewrite Hc, Hcalls. simpl.
      apply Forall_fmap, Forall_forall. by intros p _.
  - intros v.
    destruct (val_SetValue_next ValueB v w Hhdr)
      as (w' & Hrun & _ & _ & _ & _ & Hm & _).
    exists w'. split; [exact Hrun|]. intros p Hp. rewrite Hm.
    rewrite (val_foldl_written (observers w)
               (assign ValueB v (subject w)) ValueB x).
    + reflexivity.
    + intros q Hq. apply Hhdr. by apply elem_of_iteration_order.
    + right. exists p, (Observer.mk f).
      split; [apply elem_of_iteration_order; rewrite HX; set_solver|].
      split; [by apply Hobs|done].
Qed.

End value_copies.

(** X13: the lambda and the free-function benchmark.  The creation loop is
    defined and registers exactly the copies it makes, each holding the
    callable of the wrapper copied.  All copies hold a callable that acts on
    [ValueB] only, so "Benchmark Notification", [subject.SetValueA(0)], calls
    every copy exactly once and no other handle, with the tag [ValueA], and
    writes no variable: [value] keeps its 0 and [freeFuncValueB] keeps what
    it held.  The copies are reached for real: [SetValueB(v)] on the same
    world, with at least one copy, leaves [v] in the variable they share. *)
Theorem X13_benchmark_copies (value : N) (left : Z) (other : ptr)
    (observers : list ptr) :
  NoDup observers →
  (∃ w w',
      ValueSemantics.benchmark_Lambda_setup value other observers = Some w
      ∧ ValueSemantics.m_Observers (ValueSemantics.subject w)
        = list_to_set observers
      ∧ ValueSemantics.benchmark_Notification w = Some w'
      ∧ ValueSemantics.memory w' = ValueSemantics.memory w
      ∧ ValueSemantics.memory w' !! ValueSemantics.automatic value = Some 0
      ∧ length (ValueSemantics.calls w') = length observers
      ∧ (∀ p, p ∈ observers →
              ValueSemantics.observers w !! p
              = Some (ValueSemantics.Observer.mk
                        (ValueSemantics.lambdaB value)))
      ∧ (∀ p, ValueSemantics.times_called p (ValueSemantics.calls w')
              = if decide (p ∈ observers) then 1%nat else 0%nat)
      ∧ Forall (λ c, ValueSemantics.call_tag c = ValueSemantics.ValueA)
          (ValueSemantics.calls w')
      ∧ ∀ v, ∃ w2,
          ValueSemantics.SetValueB v w = Some w2
          ∧ ∀ p, p ∈ observers →
                 ValueSemantics.memory w2 !! ValueSemantics.automatic value
                 = Some v)
  ∧ (∃ w w',
      ValueSemantics.benchmark_FreeFunction_setup left other observers
      = Some w
      ∧ ValueSemantics.m_Observers (ValueSemantics.subject w)
        = list_to_set observers
      ∧ ValueSemantics.benchmark_Notification w = Some w'
      ∧ ValueSemantics.memory w' = ValueSemantics.memory w
      ∧ ValueSemantics.memory w' !! ValueSemantics.freeFuncValueB = Some left
      ∧ length (ValueSemantics.calls w') = length observers
      ∧ (∀ p, p ∈ observers →
              ValueSemantics.observers w !! p
              = Some (ValueSemantics.Observer.mk
                        ValueSemantics.OnNotification))
      ∧ (∀ p, ValueSemantics.times_called p (ValueSemantics.calls w')
              = if decide (p ∈ observers) then 1%nat else 0%nat)
      ∧ Forall (λ c, ValueSemantics.call_tag c = ValueSemantics.ValueA)
          (ValueSemantics.calls w')
      ∧ ∀ v, ∃ w2,
          ValueSemantics.SetValueB v w = Some w2
          ∧ ∀ p, p ∈ observers →
                 ValueSemantics.memory w2 !! ValueSemantics.freeFuncValueB
                 = Some v).
Proof.
  intros Hnd. split.
  - destruct (val_create_copies_spec other (ValueSemantics.lambdaB value)
                observers
                (ValueSemantics.declare_Observer other
                   (ValueSemantics.lambdaB value)
                   (ValueSemantics.declare_int32_t
                      (ValueSemantics.automatic value) 0
                      ValueSemantics.World_new)))
      as (w & Hrun & HX & _ & _ & Hc & Hm & Ho).
    { simpl. by rewrite lookup_insert_eq. }
    assert (HX' : ValueSemantics.m_Observers (ValueSemantics.subject w)
                  = list_to_set observers)
      by (rewrite HX; simpl; set_solver).
    assert (Hobs : ∀ q, q ∈ observers →
              ValueSemantics.observers w !! q
              = Some (ValueSemantics.Observer.mk
                        (ValueSemantics.lambdaB value)))
      by (intros q Hq; by rewrite Ho, decide_True).
    destruct (val_copies_Notification (ValueSemantics.lambdaB value)
                observers w)
      as (w' & Hrun' & Hm' & Hlen); [done|done|done|].
    destruct (val_copies_setters (ValueSemantics.lambdaB value)
                (ValueSemantics.automatic value) observers w
                (ValueSemantics.caches_lambdaB value) HX' Hobs Hc)
      as [(w2 & Hrun2 & _ & Hcount & Htag) HB].
    assert (w2 = w') as -> by congruence.
    exists w, w'. split; [exact Hrun|]. split; [done|]. split; [done|].
    split; [done|]. split.
    { rewrite Hm', Hm. simpl. by rewrite lookup_insert_eq. }
    split.
    { rewrite Hlen, Hc, HX', size_list_to_set by done. reflexivity. }
    by repeat split.
  - destruct (val_create_copies_spec other ValueSemantics.OnNotification
                observers
                (ValueSemantics.declare_Observer other
                   ValueSemantics.OnNotification
                   (ValueSemantics.declare_int32_t
                      ValueSemantics.freeFuncValueB left
                      ValueSemantics.World_new)))
      as (w & Hrun & HX & _ & _ & Hc & Hm & Ho).
    { simpl. by rewrite lookup_insert_eq. }
    assert (HX' : ValueSemantics.m_Observers (ValueSemantics.subject w)
                  = list_to_set observers)
      by (rewrite HX; simpl; set_solver).
    assert (Hobs : ∀ q, q ∈ observers →
              ValueSemantics.observers w !! q
              = Some (ValueSemantics.Observer.mk
                        ValueSemantics.OnNotification))
      by (intros q Hq; by rewrite Ho, decide_True).
    destruct (val_copies_Notification ValueSemantics.OnNotification
                observers w)
      as (w' & Hrun' & Hm' & Hlen); [done|done|done|].
    destruct (val_copies_setters ValueSemantics.OnNotification
                ValueSemantics.freeFuncValueB observers w
                ValueSemantics.caches_OnNotification HX' Hobs Hc)
      as [(w2 & Hrun2 & _ & Hcount & Htag) HB].
    assert (w2 = w') as -> by congruence.
    exists w, w'. split; [exact Hrun|]. split; [done|]. split; [done|].
    split; [done|]. split.
    { rewrite Hm', Hm. simpl. by rewrite lookup_insert_eq. }
    split.
    { rewrite Hlen, Hc, HX', size_list_to_set by done. reflexivity. }
    by repeat split.
Qed.

Lemma X13_benchmark_copies_witness :
  NoDup benchmark_addresses
  ∧ ∃ w w' w8,
      ValueSemantics.benchmark_Lambda_setup 0 1 benchmark_addresses = Some w
      ∧ ValueSemantics.benchmark_Notification w = Some w'
      ∧ ValueSemantics.memory w' !! ValueSemantics.automatic 0 = Some 0
      ∧ ValueSemantics.call_observer <$> ValueSemantics.calls w'
        = [2; 5; 7; 9]%N
      ∧ ValueSemantics.SetValueB 8 w = Some w8
      ∧ ValueSemantics.memory w8 !! ValueSemantics.automatic 0 = Some 8.
Proof.
  split; [exact benchmark_addresses_NoDup|].
  destruct (X13_benchmark_copies 0 3 1 benchmark_addresses
              benchmark_addresses_NoDup)
    as [(w & w' & Hrun & _ & Hrun' & _ & Hm & _ & _ & _ & _ & HB) _].
  destruct (HB 8) as (w8 & Hrun8 & Hm8).
  assert (Hin : 7%N ∈ benchmark_addresses)
    by (unfold benchmark_addresses; set_solver).
  exists w, w', w8. split; [exact Hrun|]. split; [exact Hrun'|].
  split; [exact Hm|]. split.
  { pose proof Hrun as Hw. vm_compute in Hw. injection Hw as <-.
    pose proof Hrun' as Hw'. vm_compute in Hw'. injection Hw' as <-.
    reflexivity. }
  split; [exact Hrun8|exact (Hm8 7%N Hin)].
Defined.


